(** * A Rocq model of the Dropbox Paper client ([paper.go])

    The client is a thin wrapper around three remote operations.  Each
    operation marshals a request struct with [encoding/json], issues one
    HTTP POST through [net/http], and decodes the response.  The model
    below follows that layering:

    - Go strings are byte strings ([string], one [ascii] per byte);
    - [Module utf8], [Module strconv] and [Module io] model the few
      functions of the Go library that the client and [encoding/json]
      rely on;
    - [Module json] models [encoding/json]: the writer of strings and
      values, the scanner, struct tags, and the decoder that stores a
      scanned value into a destination of a given Go type;
    - [Module http] models headers, requests and responses;
    - the top level embeds [paper.go] itself: the struct declarations
      with their tags as written, [rpc], [content] and the three public
      operations, as programs that perform [Do] calls on a transport.

    Conventions.  A nil slice, a nil map and a nil byte slice are
    identified with the empty ones.  An [UnmarshalTypeError] keeps the
    description of the JSON value and the name of the Go type.  The
    scanner refuses a text whose arrays and objects are nested deeper
    than [maxNestingDepth], as [encoding/json] does.  A slice is decoded into the elements it has, not
    into spare capacity. *)

From Stdlib Require Import ZArith NArith List Ascii String Lia.
From Stdlib Require Import DecimalString DecimalZ DecimalPos DecimalFacts.
From stdpp Require Import base option list strings gmap.

Local Open Scope string_scope.
Set Warnings "-register-all".

(** ** Bytes and byte strings *)

(** The double quote character, and a string made of it. *)
Definition dq : ascii := "034"%char.
Definition DQ : string := String dq "".

(** [lit] writes texts that contain double quotes: every single quote
    of its argument stands for a double quote. *)
Fixpoint lit (s : string) : string :=
  match s with
  | "" => ""
  | String c t => String (if Ascii.eqb c "'" then dq else c) (lit t)
  end.

Definition byte (c : ascii) : N := N_of_ascii c.
Definition chr (n : N) : ascii := ascii_of_N n.

Fixpoint stake (n : nat) (s : string) : string :=
  match n, s with
  | S n, String c t => String c (stake n t)
  | _, _ => ""
  end.

Fixpoint sdrop (n : nat) (s : string) : string :=
  match n, s with
  | S n, String _ t => sdrop n t
  | _, _ => s
  end.

(** ** unicode/utf8 *)

Module utf8.
Local Open Scope N_scope.

Definition RuneError : N := 65533.
Definition MaxRune : N := 1114111.

(** [utf8.DecodeRuneInString]: the first rune of [s] and its width in
    bytes; an invalid encoding yields [(RuneError, 1)]. *)
Definition DecodeRuneInString (s : string) : N * nat :=
  match s with
  | "" => (RuneError, 0%nat)
  | String c0 t =>
    let s0 := byte c0 in
    if s0 <? 128 then (s0, 1%nat)
    else if (s0 <? 194) || (244 <? s0) then (RuneError, 1%nat)
    else
      let lo := if s0 =? 224 then 160 else if s0 =? 240 then 144 else 128 in
      let hi := if s0 =? 237 then 159 else if s0 =? 244 then 143 else 191 in
      match t with
      | "" => (RuneError, 1%nat)
      | String c1 t1 =>
        let s1 := byte c1 in
        if (s1 <? lo) || (hi <? s1) then (RuneError, 1%nat)
        else if s0 <? 224
        then (N.lor (N.shiftl (N.land s0 31) 6) (N.land s1 63), 2%nat)
        else
          match t1 with
          | "" => (RuneError, 1%nat)
          | String c2 t2 =>
            let s2 := byte c2 in
            if (s2 <? 128) || (191 <? s2) then (RuneError, 1%nat)
            else if s0 <? 240
            then (N.lor (N.shiftl (N.land s0 15) 12)
                    (N.lor (N.shiftl (N.land s1 63) 6) (N.land s2 63)), 3%nat)
            else
              match t2 with
              | "" => (RuneError, 1%nat)
              | String c3 _ =>
                let s3 := byte c3 in
                if (s3 <? 128) || (191 <? s3) then (RuneError, 1%nat)
                else (N.lor (N.shiftl (N.land s0 7) 18)
                        (N.lor (N.shiftl (N.land s1 63) 12)
                           (N.lor (N.shiftl (N.land s2 63) 6) (N.land s3 63))),
                      4%nat)
              end
          end
      end
  end.

Definition enc3 (r : N) : string :=
  String (chr (N.lor 224 (N.shiftr r 12)))
    (String (chr (N.lor 128 (N.land (N.shiftr r 6) 63)))
       (String (chr (N.lor 128 (N.land r 63))) "")).

(** [utf8.AppendRune]: the UTF-8 encoding of a rune; surrogates and
    values above [MaxRune] are encoded as [RuneError]. *)
Definition EncodeRune (r : N) : string :=
  if r <=? 127 then String (chr r) ""
  else if r <=? 2047 then
    String (chr (N.lor 192 (N.shiftr r 6)))
      (String (chr (N.lor 128 (N.land r 63))) "")
  else if (MaxRune <? r) || ((55296 <=? r) && (r <=? 57343)) then enc3 RuneError
  else if r <=? 65535 then enc3 r
  else
    String (chr (N.lor 240 (N.shiftr r 18)))
      (String (chr (N.lor 128 (N.land (N.shiftr r 12) 63)))
         (String (chr (N.lor 128 (N.land (N.shiftr r 6) 63)))
            (String (chr (N.lor 128 (N.land r 63))) ""))).
End utf8.

(** ** strconv *)

Module strconv.
Local Open Scope Z_scope.

(** [strconv.AppendInt(_, n, 10)]. *)
Definition FormatInt (n : Z) : string := NilZero.string_of_int (Z.to_int n).

Definition is_digit (c : ascii) : bool :=
  ((48 <=? byte c) && (byte c <=? 57))%N.

Fixpoint all_digits (s : string) : bool :=
  match s with
  | "" => true
  | String c t => is_digit c && all_digits t
  end.

(** [strconv.ParseInt(s, 10, 64)]: an optional sign followed by one or
    more decimal digits, within the range of [int64].  (Underscores
    are only legal with base 0.) *)
Definition ParseInt (s : string) : option Z :=
  let digits :=
    match s with
    | String "-" t => t
    | String "+" t => t
    | _ => s
    end in
  match digits with
  | "" => None
  | _ =>
    if all_digits digits then
      match NilZero.uint_of_string digits with
      | Some u =>
        let n := match s with String "-" _ => - Z.of_uint u | _ => Z.of_uint u end in
        if (- 2 ^ 63 <=? n) && (n <? 2 ^ 63) then Some n else None
      | None => None
      end
    else None
  end.
End strconv.

(** ** io *)

Module io.
Inductive error :=
| EOF
| ErrUnexpectedEOF
| Failure (cause : string).

(** A byte stream that is read once: it delivers [data] and then ends,
    with [io.EOF] or, when [failure] is set, with that read error (a
    connection that breaks while the body is read). *)
Record Reader := mkReader { data : string; failure : option string }.

(** A stream that delivers [s] and ends normally. *)
Definition complete (s : string) : Reader := mkReader s None.

(** [ioutil.ReadAll]: the bytes read until the stream ends, and the
    error that ended it unless that was [io.EOF]. *)
Definition ReadAll (r : Reader) : string * option error :=
  (data r, Failure <$> failure r).
End io.

(** ** encoding/json: texts *)

Module json.

(** A JSON value as the scanner delimits it.  A number keeps its
    literal, as [encoding/json] does until it knows the Go type it is
    stored into; object members keep their order and duplicates. *)
Inductive value :=
| Null
| Bool (b : bool)
| Number (literal : string)
| Str (s : string)
| Array (elems : list value)
| Object (members : list (string * value)).

(** *** Writing strings ([encodeState.string], with HTML escaping, as
    [json.Marshal] sets it) *)

Definition hex (n : N) : ascii := chr (if (n <? 10)%N then 48 + n else 87 + n)%N.

Definition htmlSafe (c : ascii) : bool :=
  let b := byte c in
  ((32 <=? b) && (b <? 128) && negb (b =? 34) && negb (b =? 92)
   && negb (b =? 60) && negb (b =? 62) && negb (b =? 38))%N.

(** Bytes below [utf8.RuneSelf].  The short forms for backspace and
    form feed of later Go releases are not used; both spellings decode
    to the same byte. *)
Definition escape_byte (c : ascii) : string :=
  if htmlSafe c then String c ""
  else if Ascii.eqb c "\" || Ascii.eqb c dq then String "\" (String c "")
  else if Ascii.eqb c "010" then "\n"
  else if Ascii.eqb c "013" then "\r"
  else if Ascii.eqb c "009" then "\t"
  else "\u00" +:+ String (hex (N.shiftr (byte c) 4)) (String (hex (N.land (byte c) 15)) "").

Fixpoint appendString (fuel : nat) (s : string) : string :=
  match fuel, s with
  | S n, String c t =>
    if (byte c <? 128)%N then escape_byte c +:+ appendString n t
    else
      let '(r, size) := utf8.DecodeRuneInString s in
      if (r =? utf8.RuneError)%N && Nat.eqb size 1 then "\ufffd" +:+ appendString n t
      else if (r =? 8232)%N then "\u2028" +:+ appendString n (sdrop size s)
      else if (r =? 8233)%N then "\u2029" +:+ appendString n (sdrop size s)
      else stake size s +:+ appendString n (sdrop size s)
  | _, _ => ""
  end.

Definition quote (s : string) : string :=
  DQ +:+ appendString (String.length s) s +:+ DQ.

(** Items separated by commas. *)
Fixpoint join {A} (pr : A -> string) (l : list A) : string :=
  match l with
  | [] => ""
  | x :: t => pr x +:+ match t with [] => "" | _ => "," +:+ join pr t end
  end.

(** The compact text [json.Marshal] writes for a value. *)
Fixpoint print (v : value) : string :=
  match v with
  | Null => "null"
  | Bool true => "true"
  | Bool false => "false"
  | Number l => l
  | Str s => quote s
  | Array l => "[" +:+ join print l +:+ "]"
  | Object m =>
    "{" +:+ join (fun kv => quote (fst kv) +:+ ":" +:+ print (snd kv)) m +:+ "}"
  end.

(** *** The scanner *)

(** The outcome of scanning a prefix of the input: a result and the
    unread rest; [Short] when the input ends inside a value;
    [Invalid] at the first byte that cannot continue a value.
    [Exhausted] is the recursion bound of the model (see
    [next_value]). *)
Inductive scan (A : Type) :=
| Scanned (a : A) (rest : string)
| Short
| Invalid
| Exhausted.
Arguments Scanned {A} a rest.
Arguments Short {A}.
Arguments Invalid {A}.
Arguments Exhausted {A}.

Definition scan_bind {A B} (x : scan A) (k : A -> string -> scan B) : scan B :=
  match x with
  | Scanned a rest => k a rest
  | Short => Short
  | Invalid => Invalid
  | Exhausted => Exhausted
  end.

Definition scan_map {A B} (f : A -> B) (x : scan A) : scan B :=
  scan_bind x (fun a rest => Scanned (f a) rest).

Definition isSpace (c : ascii) : bool :=
  Ascii.eqb c " " || Ascii.eqb c "009" || Ascii.eqb c "013" || Ascii.eqb c "010".

Fixpoint skip_space (s : string) : string :=
  match s with
  | String c t => if isSpace c then skip_space t else s
  | "" => ""
  end.

Definition is_hex (c : ascii) : bool :=
  let b := byte c in
  (((48 <=? b) && (b <=? 57)) || ((97 <=? b) && (b <=? 102))
   || ((65 <=? b) && (b <=? 70)))%N.

Fixpoint all_hex (s : string) : bool :=
  match s with
  | "" => true
  | String c t => is_hex c && all_hex t
  end.

Definition simple_escape (e : ascii) : option ascii :=
  if Ascii.eqb e "b" then Some "008"%char
  else if Ascii.eqb e "f" then Some "012"%char
  else if Ascii.eqb e "n" then Some "010"%char
  else if Ascii.eqb e "r" then Some "013"%char
  else if Ascii.eqb e "t" then Some "009"%char
  else if Ascii.eqb e "\" || Ascii.eqb e "/" || Ascii.eqb e dq then Some e
  else None.

(** The bytes of a string literal after its opening quote, up to the
    closing quote, escapes still in place ([stateInString] and its
    successors). *)
Fixpoint string_token (s : string) : scan string :=
  match s with
  | "" => Short
  | String c t =>
    if Ascii.eqb c dq then Scanned "" t
    else if Ascii.eqb c "\" then
      match t with
      | "" => Short
      | String e t' =>
        if Ascii.eqb e "u" then
          match t' with
          | String h1 (String h2 (String h3 (String h4 t''))) =>
            if is_hex h1 && is_hex h2 && is_hex h3 && is_hex h4
            then scan_map
                   (fun r => String c (String e (String h1 (String h2 (String h3 (String h4 r))))))
                   (string_token t'')
            else Invalid
          | _ => if all_hex t' then Short else Invalid
          end
        else
          match simple_escape e with
          | Some _ => scan_map (fun r => String c (String e r)) (string_token t')
          | None => Invalid
          end
      end
    else if (byte c <? 32)%N then Invalid
    else scan_map (String c) (string_token t)
  end.

Definition hexval (c : ascii) : N :=
  let b := byte c in
  (if b <=? 57 then b - 48 else if b <=? 70 then b - 55 else b - 87)%N.

(** [getu4]: the code unit of a [\uXXXX] escape at the head of [s]. *)
Definition getu4 (s : string) : option N :=
  match s with
  | String "\" (String "u" (String h1 (String h2 (String h3 (String h4 _))))) =>
    if is_hex h1 && is_hex h2 && is_hex h3 && is_hex h4
    then Some (hexval h1 * 4096 + hexval h2 * 256 + hexval h3 * 16 + hexval h4)%N
    else None
  | _ => None
  end.

Definition IsSurrogate (r : N) : bool := ((55296 <=? r) && (r <? 57344))%N.

(** [utf16.DecodeRune]. *)
Definition utf16_DecodeRune (r1 r2 : N) : N :=
  if ((55296 <=? r1) && (r1 <? 56320) && (56320 <=? r2) && (r2 <? 57344))%N
  then (N.lor (N.shiftl (r1 - 55296) 10) (r2 - 56320) + 65536)%N
  else utf8.RuneError.

(** [unquoteBytes] on the inside of a literal: escapes are replaced
    and every invalid UTF-8 byte becomes U+FFFD.  [None] stands for
    the failure that the scanner has already excluded. *)
Fixpoint unquote (fuel : nat) (s : string) : option string :=
  match fuel, s with
  | _, "" => Some ""
  | O, _ => None
  | S n, String c t =>
    if Ascii.eqb c "\" then
      match t with
      | "" => None
      | String e t' =>
        if Ascii.eqb e "u" then
          match getu4 s with
          | None => None
          | Some rr =>
            let rest := sdrop 6 s in
            if IsSurrogate rr then
              let dec := match getu4 rest with
                         | Some rr1 => utf16_DecodeRune rr rr1
                         | None => utf8.RuneError
                         end in
              if negb (dec =? utf8.RuneError)%N
              then String.append (utf8.EncodeRune dec) <$> unquote n (sdrop 6 rest)
              else String.append (utf8.EncodeRune utf8.RuneError) <$> unquote n rest
            else String.append (utf8.EncodeRune rr) <$> unquote n rest
          end
        else
          match simple_escape e with
          | Some b => String b <$> unquote n t'
          | None => None
          end
      end
    else if Ascii.eqb c dq || (byte c <? 32)%N then None
    else if (byte c <? 128)%N then String c <$> unquote n t
    else
      let '(r, size) := utf8.DecodeRuneInString s in
      if (r =? utf8.RuneError)%N && Nat.eqb size 1
      then String.append (utf8.EncodeRune utf8.RuneError) <$> unquote n t
      else String.append (stake size s) <$> unquote n (sdrop size s)
  end.

(** A string literal after its opening quote, unquoted. *)
Definition string_value (s : string) : scan string :=
  scan_bind (string_token s) (fun raw rest =>
    match unquote (String.length raw) raw with
    | Some u => Scanned u rest
    | None => Invalid
    end).

Fixpoint span_digits (s : string) : string * string :=
  match s with
  | String c t =>
    if strconv.is_digit c
    then let '(ds, r) := span_digits t in (String c ds, r)
    else ("", s)
  | "" => ("", "")
  end.

(** One or more digits, as [stateDot]/[stateESign] demand. *)
Definition digits1 (s : string) (k : string -> string -> scan string) : scan string :=
  match span_digits s with
  | ("", "") => Short
  | ("", _) => Invalid
  | (ds, r) => k ds r
  end.

(** The exponent of a number ([stateE], [stateESign], [stateE0]). *)
Definition exp_part (l : string) (s : string) : scan string :=
  match s with
  | String c t =>
    if Ascii.eqb c "e" || Ascii.eqb c "E" then
      let '(sg, t1) := match t with
                       | String "+" t1 => ("+", t1)
                       | String "-" t1 => ("-", t1)
                       | _ => ("", t)
                       end in
      digits1 t1 (fun ds r => Scanned (l +:+ String c sg +:+ ds) r)
    else Scanned l s
  | "" => Scanned l s
  end.

(** The fraction of a number ([state0], [stateDot], [stateDot0]). *)
Definition frac_part (l : string) (s : string) : scan string :=
  match s with
  | String "." t => digits1 t (fun ds r => exp_part (l +:+ "." +:+ ds) r)
  | _ => exp_part l s
  end.

(** A number literal ([stateNeg], [state0], [state1]); the literal ends
    at the first byte that cannot continue it, or with the input. *)
Definition number_token (s : string) : scan string :=
  let '(sg, s1) := match s with
                   | String "-" t => ("-", t)
                   | _ => ("", s)
                   end in
  match s1 with
  | "" => Short
  | String c t =>
    if Ascii.eqb c "0" then frac_part (sg +:+ "0") t
    else if strconv.is_digit c then
      let '(ds, r) := span_digits t in frac_part (sg +:+ String c ds) r
    else Invalid
  end.

(** The rest of a keyword ([stateT] ... [stateNul]). *)
Fixpoint keyword (kw : string) (v : value) (s : string) : scan value :=
  match kw with
  | "" => Scanned v s
  | String k kw' =>
    match s with
    | "" => Short
    | String c t => if Ascii.eqb c k then keyword kw' v t else Invalid
    end
  end.

(** The members of an object after its first key's position: a key,
    a colon, a value, then a comma and the next member or the closing
    brace. *)
Fixpoint members (fuel : nat) (val : string -> scan value)
    (acc : list (string * value)) (s : string) : scan value :=
  match fuel with
  | O => Exhausted
  | S n =>
    match skip_space s with
    | "" => Short
    | String c t =>
      if Ascii.eqb c dq then
        scan_bind (string_value t) (fun k r1 =>
          match skip_space r1 with
          | "" => Short
          | String c1 t1 =>
            if Ascii.eqb c1 ":" then
              scan_bind (val t1) (fun v r2 =>
                match skip_space r2 with
                | "" => Short
                | String c2 t2 =>
                  if Ascii.eqb c2 "," then members n val (acc ++ [(k, v)]) t2
                  else if Ascii.eqb c2 "}" then Scanned (Object (acc ++ [(k, v)])) t2
                  else Invalid
                end)
            else Invalid
          end)
      else Invalid
    end
  end.

(** The elements of an array after the first element's position. *)
Fixpoint elements (fuel : nat) (val : string -> scan value)
    (acc : list value) (s : string) : scan value :=
  match fuel with
  | O => Exhausted
  | S n =>
    scan_bind (val s) (fun v r =>
      match skip_space r with
      | "" => Short
      | String c t =>
        if Ascii.eqb c "," then elements n val (acc ++ [v]) t
        else if Ascii.eqb c "]" then Scanned (Array (acc ++ [v])) t
        else Invalid
      end)
  end.

(** [maxNestingDepth]: how many arrays and objects may be open at a
    time. *)
Definition maxNestingDepth : N := 10000.

(** One JSON value at the head of [s], after optional white space
    ([stateBeginValue]).  [depth] is the number of arrays and objects
    that are open, the length of the scanner's [parseState]; an opening
    bracket that would make it exceed [maxNestingDepth] is an error at
    that byte ([pushParseState]). *)
Fixpoint scan_value (fuel : nat) (depth : N) (s : string) : scan value :=
  match fuel with
  | O => Exhausted
  | S n =>
    match skip_space s with
    | "" => Short
    | String c t =>
      if Ascii.eqb c "{" then
        if (maxNestingDepth <=? depth)%N then Invalid
        else
          match skip_space t with
          | "" => Short
          | String c' t' =>
            if Ascii.eqb c' "}" then Scanned (Object []) t'
            else members n (scan_value n (depth + 1)) [] t
          end
      else if Ascii.eqb c "[" then
        if (maxNestingDepth <=? depth)%N then Invalid
        else
          match skip_space t with
          | "" => Short
          | String c' t' =>
            if Ascii.eqb c' "]" then Scanned (Array []) t'
            else elements n (scan_value n (depth + 1)) [] t
          end
      else if Ascii.eqb c dq then scan_map Str (string_value t)
      else if Ascii.eqb c "t" then keyword "rue" (Bool true) t
      else if Ascii.eqb c "f" then keyword "alse" (Bool false) t
      else if Ascii.eqb c "n" then keyword "ull" Null t
      else if Ascii.eqb c "-" || strconv.is_digit c
      then scan_map Number (number_token (String c t))
      else Invalid
    end
  end.

(** The next value of a text, scanned with no bracket open.  Every
    recursive call of the scanner follows at least one consumed byte,
    so the length of the text bounds the recursion (see
    [next_value_not_exhausted]). *)
Definition next_value (s : string) : scan value :=
  scan_value (S (String.length s)) 0 s.

(** *** Struct tags ([reflect.StructTag.Lookup], [parseTag]) *)

Fixpoint span (p : ascii -> bool) (s : string) : string * string :=
  match s with
  | String c t => if p c then let '(a, r) := span p t in (String c a, r) else ("", s)
  | "" => ("", "")
  end.

(** The inside of a quoted tag value and what follows its closing
    quote; a backslash protects the next byte. *)
Fixpoint quoted_end (s : string) : option (string * string) :=
  match s with
  | "" => None
  | String c t =>
    if Ascii.eqb c dq then Some ("", t)
    else if Ascii.eqb c "\" then
      match t with
      | String e t' =>
        match quoted_end t' with
        | Some (v, r) => Some (String c (String e v), r)
        | None => None
        end
      | "" => None
      end
    else match quoted_end t with
         | Some (v, r) => Some (String c v, r)
         | None => None
         end
  end.

Definition tag_name_byte (c : ascii) : bool :=
  ((32 <? byte c) && negb (byte c =? 127))%N
  && negb (Ascii.eqb c ":") && negb (Ascii.eqb c dq).

Fixpoint has_byte (b : ascii) (s : string) : bool :=
  match s with
  | "" => false
  | String c t => Ascii.eqb c b || has_byte b t
  end.

(** [StructTag.Lookup]: the value of [key] in a tag made of
    [name:"value"] pairs; scanning stops at the first piece that is
    not of that form.  No tag of this program has a backslash, for
    which [strconv.Unquote] only removes the quotes; a value with a
    backslash is reported as not found. *)
Fixpoint Lookup (fuel : nat) (tag key : string) : option string :=
  match fuel with
  | O => None
  | S n =>
    let tag := snd (span (fun c => Ascii.eqb c " ") tag) in
    let '(name, rest) := span tag_name_byte tag in
    match name, rest with
    | String _ _, String ":" (String "034" r) =>
      match quoted_end r with
      | Some (v, rest') =>
        if String.eqb name key
        then (if has_byte "\" v then None else Some v)
        else Lookup n rest' key
      | None => None
      end
    | _, _ => None
    end
  end.

Definition tag_get (tag key : string) : string :=
  default "" (Lookup (String.length tag) tag key).

Fixpoint split_comma (s : string) : list string :=
  match s with
  | "" => [""]
  | String c t =>
    if Ascii.eqb c "," then "" :: split_comma t
    else match split_comma t with
         | x :: l => String c x :: l
         | [] => [String c ""]
         end
  end.

(** [parseTag]: the name before the first comma, and the options. *)
Definition parseTag (t : string) : string * list string :=
  match split_comma t with
  | x :: l => (x, l)
  | [] => ("", [])
  end.

(** [isValidTag]: letters, digits and some punctuation.  Bytes of
    multi-byte runes are taken to belong to letters. *)
Definition valid_tag_byte (c : ascii) : bool :=
  let b := byte c in
  (((48 <=? b) && (b <=? 57)) || ((65 <=? b) && (b <=? 90))
   || ((97 <=? b) && (b <=? 122)) || (128 <=? b))%N
  || has_byte c "!#$%&()*+-./:;<=>?@[]^_{|}~ ".

Fixpoint all_bytes (p : ascii -> bool) (s : string) : bool :=
  match s with
  | "" => true
  | String c t => p c && all_bytes p t
  end.

Definition isValidTag (s : string) : bool :=
  negb (String.eqb s "") && all_bytes valid_tag_byte s.

(** *** Errors, and what a type needs to be decoded and encoded *)

Inductive error :=
| SyntaxError
| UnmarshalTypeError (Value : string) (Type_ : string)
| Read (e : io.error).

(** The decoder keeps the first type error and goes on ([saveError]). *)
Definition saveError (saved new : option error) : option error :=
  match saved with
  | Some _ => saved
  | None => new
  end.

(** The zero value of a Go type. *)
Class Zero (A : Type) := zero : A.

(** [store j v] is [d.value] for a destination of type [A] that
    currently holds [v]: the new content and the saved error. *)
Class Decodable (A : Type) := {
  type_name : string;
  store : value -> A -> A * option error
}.

(** [encode v] is the value [reflectValue] writes for [v], and
    [isEmptyValue v] what [omitempty] tests. *)
Class Encodable (A : Type) := {
  isEmptyValue : A -> bool;
  encode : A -> value
}.

(** What [UnmarshalTypeError.Value] says of a JSON value. *)
Definition describe (j : value) : string :=
  match j with
  | Null => "null"
  | Bool _ => "bool"
  | Number _ => "number"
  | Str _ => "string"
  | Array _ => "array"
  | Object _ => "object"
  end.

Definition mismatch {A} (tn : string) (j : value) (v : A) : A * option error :=
  (v, Some (UnmarshalTypeError (describe j) tn)).

(** Strings, and named string types such as [ListPaperDocsSortBy]. *)
Definition string_store (tn : string) (j : value) (v : string) : string * option error :=
  match j with
  | Null => (v, None)
  | Str s => (s, None)
  | _ => mismatch tn j v
  end.

Definition string_decodable (tn : string) : Decodable string :=
  {| type_name := tn; store := string_store tn |}.

#[export] Instance string_zero : Zero string := "".
#[export] Instance decodable_string : Decodable string := string_decodable "string".
#[export] Instance encodable_string : Encodable string :=
  {| isEmptyValue s := String.eqb s ""; encode := Str |}.

#[export] Instance bool_zero : Zero bool := false.
#[export] Instance decodable_bool : Decodable bool :=
  {| type_name := "bool";
     store j v := match j with
                  | Null => (v, None)
                  | Bool b => (b, None)
                  | _ => mismatch "bool" j v
                  end |}.

(** Signed integers of [bits] bits, as [Z] within the range of the
    type.  A literal that [strconv.ParseInt] rejects, or whose value
    overflows the type, is a type error and leaves the destination. *)
Definition in_range (bits : Z) (n : Z) : bool :=
  ((- 2 ^ (bits - 1) <=? n) && (n <? 2 ^ (bits - 1)))%Z.

Definition int_store (bits : Z) (tn : string) (j : value) (v : Z) : Z * option error :=
  match j with
  | Null => (v, None)
  | Number l =>
    match strconv.ParseInt l with
    | Some n => if in_range bits n then (n, None)
                else (v, Some (UnmarshalTypeError ("number " +:+ l) tn))
    | None => (v, Some (UnmarshalTypeError ("number " +:+ l) tn))
    end
  | _ => mismatch tn j v
  end.

Definition int32 := Z.
Definition int64 := Z.
#[export] Instance Z_zero : Zero Z := 0%Z.
Definition decodable_int32 : Decodable int32 :=
  {| type_name := "int32"; store := int_store 32 "int32" |}.
Definition decodable_int64 : Decodable int64 :=
  {| type_name := "int64"; store := int_store 64 "int64" |}.
Definition encodable_int : Encodable Z :=
  {| isEmptyValue n := (n =? 0)%Z; encode n := Number (strconv.FormatInt n) |}.

(** Slices.  The nil slice and the empty slice are both [[]].  The
    elements of a JSON array are decoded in order into the elements
    the slice already has, then into zero values ([d.array]). *)
Fixpoint store_elems {A} `{Zero A, Decodable A}
    (js : list value) (old : list A) : list A * option error :=
  match js with
  | [] => ([], None)
  | j :: js' =>
    let '(x, e) := store j (hd zero old) in
    let '(xs, e') := store_elems js' (tl old) in
    (x :: xs, saveError e e')
  end.

#[export] Instance slice_zero {A} : Zero (list A) := [].
#[export] Instance decodable_slice {A} `{Zero A, Decodable A} : Decodable (list A) :=
  {| type_name := "[]" +:+ type_name (A := A);
     store j v := match j with
                  | Null => ([], None)
                  | Array js => store_elems js v
                  | _ => mismatch ("[]" +:+ type_name (A := A)) j v
                  end |}.

(** Maps with string keys.  The nil map and the empty map are both
    [∅].  Each member is decoded into a fresh zero value, which is
    then stored under its key, into the map as it is ([d.object]). *)
Fixpoint store_entries {A} `{Zero A, Decodable A}
    (ms : list (string * value)) (m : gmap string A) : gmap string A * option error :=
  match ms with
  | [] => (m, None)
  | (k, j) :: ms' =>
    let '(x, e) := store j zero in
    let '(m', e') := store_entries ms' (<[k := x]> m) in
    (m', saveError e e')
  end.

#[export] Instance map_zero {A} : Zero (gmap string A) := (∅ : gmap string A).
#[export] Instance decodable_map {A} `{Zero A, Decodable A} : Decodable (gmap string A) :=
  {| type_name := "map[string]" +:+ type_name (A := A);
     store j v := match j with
                  | Null => (∅, None)
                  | Object ms => store_entries ms v
                  | _ => mismatch ("map[string]" +:+ type_name (A := A)) j v
                  end |}.

(** *** Structs *)

(** A struct field as [typeFields] sees it: its Go name, its tag as
    written in the source, and how to decode a value into it. *)
Record Field (S : Type) := mkField {
  goName : string;
  tag : string;
  fstore : value -> S -> S * option error
}.
Arguments mkField {S}.
Arguments goName {S}.
Arguments tag {S}.
Arguments fstore {S}.

(** A field of a struct that is also marshalled. *)
Record EField (S : Type) := mkEField {
  base :> Field S;
  fempty : S -> bool;
  fencode : S -> value
}.
Arguments mkEField {S}.
Arguments base {S}.
Arguments fempty {S}.
Arguments fencode {S}.

Definition field {S T} `{Decodable T} (name tag : string)
    (get : S -> T) (set : T -> S -> S) : Field S :=
  mkField name tag (fun j s => let '(t, e) := store j (get s) in (set t s, e)).

Definition efield {S T} `{Decodable T, Encodable T} (name tag : string)
    (get : S -> T) (set : T -> S -> S) : EField S :=
  mkEField (field name tag get set)
    (fun s => isEmptyValue (get s)) (fun s => encode (get s)).

(** The key of a field in JSON: the name given by its [json] tag when
    there is one and it is valid, else its Go name; [None] for a field
    that the tag [-] leaves out. *)
Definition json_key (name tag : string) : option string :=
  let t := tag_get tag "json" in
  if String.eqb t "-" then None
  else let n := fst (parseTag t) in
       Some (if isValidTag n then n else name).

Definition omitempty (tag : string) : bool :=
  existsb (String.eqb "omitempty") (snd (parseTag (tag_get tag "json"))).

Definition keyed {S} (fs : list (Field S)) : list (string * Field S) :=
  omap (fun f => (fun k => (k, f)) <$> json_key (goName f) (tag f)) fs.

(** Case folding of keys ([foldName], [bytes.EqualFold] against an
    ASCII name): ASCII letters, and the two runes whose simple fold is
    an ASCII letter, U+017F (long s) and U+212A (Kelvin sign). *)
Fixpoint foldName (s : string) : string :=
  match s with
  | "" => ""
  | String c t =>
    if ((97 <=? byte c) && (byte c <=? 122))%N
    then String (chr (byte c - 32)) (foldName t)
    else
      match s with
      | String "197" (String "191" t') => String "S" (foldName t')
      | String "226" (String "132" (String "170" t')) => String "K" (foldName t')
      | _ => String c (foldName t)
      end
  end.

(** The field a key selects: the one with exactly that name, else the
    first whose name equals it under case folding. *)
Definition find_field {S} (fs : list (Field S)) (key : string) : option (Field S) :=
  match find (fun kf => String.eqb (fst kf) key) (keyed fs) with
  | Some kf => Some (snd kf)
  | None =>
    option_map snd
      (find (fun kf => String.eqb (foldName (fst kf)) (foldName key)) (keyed fs))
  end.

(** The members of an object are stored in order; a member that
    selects no field is skipped. *)
Fixpoint store_members {S} (fs : list (Field S)) (ms : list (string * value)) (s : S)
    : S * option error :=
  match ms with
  | [] => (s, None)
  | (k, j) :: ms' =>
    let '(s1, e) := match find_field fs k with
                    | Some f => fstore f j s
                    | None => (s, None)
                    end in
    let '(s2, e') := store_members fs ms' s1 in
    (s2, saveError e e')
  end.

Definition struct_decodable {S} (tn : string) (fs : list (Field S)) : Decodable S :=
  {| type_name := tn;
     store j s := match j with
                  | Null => (s, None)
                  | Object ms => store_members fs ms s
                  | _ => mismatch tn j s
                  end |}.

(** The fields of a struct in declaration order, without the empty
    ones that are marked [omitempty]. *)
Definition struct_encodable {S} (fs : list (EField S)) : Encodable S :=
  {| isEmptyValue (_ : S) := false;
     encode (s : S) :=
       Object (omap (fun f : EField S =>
                 match json_key (goName f) (tag f) with
                 | Some k => if omitempty (tag f) && fempty f s then None
                             else Some (k, fencode f s)
                 | None => None
                 end) fs) |}.

(** A pointer: [None] is the nil pointer. *)
#[export] Instance encodable_ptr {A} `{Encodable A} : Encodable (option A) :=
  {| isEmptyValue p := match p with None => true | Some _ => false end;
     encode p := match p with None => Null | Some v => encode v end |}.

(** *** Entry points *)

(** [json.Marshal].  No type of this program makes it fail. *)
Definition Marshal {A} `{Encodable A} (v : A) : string * option error :=
  (print (encode v), None).

Definition self_delimited (j : value) : bool :=
  match j with
  | Array _ | Object _ => true
  | _ => false
  end.

(** [json.NewDecoder(r).Decode(&v)]: the first value of the stream is
    decoded into [v]; what follows it is left unread.  A scalar ends
    with the byte after it or with the end of the stream, so a stream
    that breaks right after one fails; an object or an array ends
    with its closing bracket. *)
Definition Decode {A} `{Decodable A} (r : io.Reader) (v : A) : A * option error :=
  match next_value (io.data r) with
  | Scanned j rest =>
    match rest, io.failure r with
    | "", Some cause =>
      if self_delimited j then store j v else (v, Some (Read (io.Failure cause)))
    | _, _ => store j v
    end
  | Short =>
    (v, Some (Read match io.failure r with
                   | Some cause => io.Failure cause
                   | None => if String.eqb (skip_space (io.data r)) ""
                             then io.EOF else io.ErrUnexpectedEOF
                   end))
  | Invalid | Exhausted => (v, Some SyntaxError)
  end.

(** [json.Unmarshal(data, &v)]: [data] must be one value, with white
    space around it at most ([checkValid]). *)
Definition Unmarshal {A} `{Decodable A} (data : string) (v : A) : A * option error :=
  match next_value data with
  | Scanned j rest =>
    if String.eqb (skip_space rest) "" then store j v else (v, Some SyntaxError)
  | _ => (v, Some SyntaxError)
  end.
End json.

(** ** net/http *)

Module http.
(** [validHeaderFieldByte]: the token bytes of RFC 7230. *)
Definition token_byte (c : ascii) : bool :=
  let b := byte c in
  (((48 <=? b) && (b <=? 57)) || ((65 <=? b) && (b <=? 90))
   || ((97 <=? b) && (b <=? 122)))%N
  || json.has_byte c "!#$%&'*+-.^_`|~".

Fixpoint canon (upper : bool) (s : string) : string :=
  match s with
  | "" => ""
  | String c t =>
    let b := byte c in
    let c' := if upper && ((97 <=? b) && (b <=? 122))%N then chr (b - 32)
              else if negb upper && ((65 <=? b) && (b <=? 90))%N then chr (b + 32)
              else c in
    String c' (canon (Ascii.eqb c' "-") t)
  end.

(** [textproto.CanonicalMIMEHeaderKey]: the first letter and every
    letter after a hyphen in upper case, the others in lower case; a
    key with a byte that no header name can have is left as it is. *)
Definition CanonicalMIMEHeaderKey (s : string) : string :=
  if json.all_bytes token_byte s then canon true s else s.

Definition Set_ (h : gmap string (list string)) (key v : string)
    : gmap string (list string) :=
  <[CanonicalMIMEHeaderKey key := [v]]> h.

Definition Get (h : gmap string (list string)) (key : string) : string :=
  match h !! CanonicalMIMEHeaderKey key with
  | Some (v :: _) => v
  | _ => ""
  end.

(** A request as [http.NewRequest] builds it and the program completes
    it: method, URL, header, and the bytes of the body reader. *)
Record Request := mkRequest {
  Method : string;
  URL : string;
  Header : gmap string (list string);
  Body : string
}.

Definition NewRequest (method url body : string) : Request :=
  mkRequest method url ∅ body.

Definition SetHeader (req : Request) (key v : string) : Request :=
  mkRequest (Method req) (URL req) (Set_ (Header req) key v) (Body req).

Record Response := mkResponse {
  StatusCode : Z;
  RespHeader : gmap string (list string);
  RespBody : io.Reader
}.

Definition StatusOK : Z := 200.
End http.

(** ** paper.go: client, errors, and the effect of a call *)

Import json.

(** [APIClient].  Its [HTTP] field, the zero [http.Client], is the
    transport on which [Do] is performed; see [Prog]. *)
Record APIClient := mkAPIClient { Token : string }.

Definition NewClient (token : string) : APIClient := mkAPIClient token.

Record APIError := mkAPIError {
  Summary : string;
  Metadata : gmap string string
}.

Definition APIError_fields : list (Field APIError) :=
  [ field "Summary" (lit "json:'error_summary'")
      Summary (fun x e => mkAPIError x (Metadata e));
    field "Metadata" (lit "json:'error'")
      Metadata (fun x e => mkAPIError (Summary e) x) ].

#[export] Instance APIError_zero : Zero APIError := mkAPIError "" ∅.
#[export] Instance APIError_decodable : Decodable APIError :=
  struct_decodable "blog.APIError" APIError_fields.

(** The values of Go's [error] that the client can return: an error of
    [encoding/json], an error of [ioutil.ReadAll], whatever [Do]
    reports, or an [APIError]. *)
Inductive error :=
| JSONError (e : json.error)
| IOError (e : io.error)
| DoError (cause : string)
| APIErr (e : APIError).

(** A [context.Context], for the transport to look at. *)
Inductive Context :=
| Background
| Done (reason : string).

(** A program that may call [c.HTTP.Do(req.WithContext(ctx))] and goes
    on with what the call returns: a response, or an error. *)
Inductive Prog (A : Type) :=
| Ret (a : A)
| Do (ctx : Context) (req : http.Request) (k : http.Response + error -> Prog A).
Arguments Ret {A} a.
Arguments Do {A} ctx req k.

(** The transport and the remote side: what [Do] answers to the request
    it is handed.  What [http.Client] does inside [Do], such as
    following a redirect with a request of its own, is part of the
    transport. *)
Definition Transport := Context -> http.Request -> http.Response + error.

(** Running a program on a transport gives its result and the requests
    it has handed to [Do], in order. *)
Fixpoint run {A} (tr : Transport) (p : Prog A) : A * list http.Request :=
  match p with
  | Ret a => (a, [])
  | Do ctx req k =>
    let '(a, sent) := run tr (k (tr ctx req)) in (a, req :: sent)
  end.

Definition result {A} (tr : Transport) (p : Prog A) : A := fst (run tr p).
Definition sent {A} (tr : Transport) (p : Prog A) : list http.Request := snd (run tr p).

(** ** paper.go: the two call shapes *)

(** [rpc].  [in_] is the argument [in]; [out] is the content of the
    destination when the call starts, and the result is its content
    when the call returns, and the error. *)
Definition rpc {I O} `{Encodable I, Decodable O}
    (c : APIClient) (ctx : Context) (url : string) (in_ : I) (out : O)
    : Prog (O * option error) :=
  let '(body, err) := Marshal in_ in
  match err with
  | Some e => Ret (out, Some (JSONError e))
  | None =>
    let req := http.NewRequest "POST" url body in
    let req := http.SetHeader req "Authorization" ("Bearer " +:+ Token c) in
    let req := http.SetHeader req "Content-Type" "application/json" in
    Do ctx req (fun r =>
      match r with
      | inr err => Ret (out, Some err)
      | inl resp =>
        if negb (http.StatusCode resp =? http.StatusOK)%Z then
          let '(apierr, err) := Decode (http.RespBody resp) (zero : APIError) in
          match err with
          | Some e => Ret (out, Some (JSONError e))
          | None => Ret (out, Some (APIErr apierr))
          end
        else
          let '(out', err) := Decode (http.RespBody resp) out in
          Ret (out', JSONError <$> err)
      end)
  end.

(** [content].  The result is the destination, the returned bytes (the
    nil slice is the empty string) and the error. *)
Definition content {I O} `{Encodable I, Decodable O}
    (c : APIClient) (ctx : Context) (url : string) (in_ : I) (out : O)
    : Prog (O * string * option error) :=
  let contents := "" in
  let '(body, err) := Marshal in_ in
  match err with
  | Some e => Ret (out, contents, Some (JSONError e))
  | None =>
    let req := http.NewRequest "POST" url body in
    let req := http.SetHeader req "Authorization" ("Bearer " +:+ Token c) in
    let req := http.SetHeader req "Dropbox-API-Arg" body in
    Do ctx req (fun r =>
      match r with
      | inr err => Ret (out, contents, Some err)
      | inl resp =>
        if negb (http.StatusCode resp =? http.StatusOK)%Z then
          let '(apierr, err) := Decode (http.RespBody resp) (zero : APIError) in
          match err with
          | Some e => Ret (out, contents, Some (JSONError e))
          | None => Ret (out, contents, Some (APIErr apierr))
          end
        else
          let result := http.Get (http.RespHeader resp) "Dropbox-API-Result" in
          let '(out', err) :=
            if negb (String.eqb result "") then Unmarshal result out else (out, None) in
          match err with
          | Some e => Ret (out', contents, Some (JSONError e))
          | None =>
            let '(data, err) := io.ReadAll (http.RespBody resp) in
            Ret (out', data, IOError <$> err)
          end
      end)
  end.

(** ** paper.go: types and operations *)

Definition ListPaperDocsFilterByAccessed : string := "accessed".
Definition ListPaperDocsFilterByModified : string := "modified".
Definition ListPaperDocsFilterByCreated : string := "created".

Definition ListPaperDocsSortByAccessed : string := "accessed".
Definition ListPaperDocsSortByModified : string := "modified".
Definition ListPaperDocsSortByCreated : string := "created".

Definition ListPaperDocsSortOrderAsc : string := "ascending".
Definition ListPaperDocsSortOrderDesc : string := "descending".

Record ListPaperDocsArgs := mkListPaperDocsArgs {
  FilterBy : string;
  SortBy : string;
  SortOrder : string;
  Limit : int32
}.

Definition ListPaperDocsArgs_fields : list (EField ListPaperDocsArgs) :=
  [ efield (H := string_decodable "blog.ListPaperDocsFilterBy")
      "FilterBy" (lit "json:'filter_by,omitempty'")
      FilterBy (fun x a => mkListPaperDocsArgs x (SortBy a) (SortOrder a) (Limit a));
    efield (H := string_decodable "blog.ListPaperDocsSortBy")
      "SortBy" (lit "json:'sort_by,omitempty'")
      SortBy (fun x a => mkListPaperDocsArgs (FilterBy a) x (SortOrder a) (Limit a));
    efield (H := string_decodable "blog.ListPaperDocsSortOrder")
      "SortOrder" (lit "json:'sort_order,omitempty'")
      SortOrder (fun x a => mkListPaperDocsArgs (FilterBy a) (SortBy a) x (Limit a));
    efield (H := decodable_int32) (H0 := encodable_int)
      "Limit" (lit "json:'limit,omitempty'")
      Limit (fun x a => mkListPaperDocsArgs (FilterBy a) (SortBy a) (SortOrder a) x) ].

#[export] Instance ListPaperDocsArgs_zero : Zero ListPaperDocsArgs :=
  mkListPaperDocsArgs "" "" "" 0%Z.
#[export] Instance ListPaperDocsArgs_decodable : Decodable ListPaperDocsArgs :=
  struct_decodable "blog.ListPaperDocsArgs" (map base ListPaperDocsArgs_fields).
#[export] Instance ListPaperDocsArgs_encodable : Encodable ListPaperDocsArgs :=
  struct_encodable ListPaperDocsArgs_fields.

Record Cursor := mkCursor {
  Value : string;
  Expiration : string
}.

Definition Cursor_fields : list (Field Cursor) :=
  [ field "Value" (lit "json:'value'") Value (fun x c => mkCursor x (Expiration c));
    field "Expiration" (lit "json:'expiration'") Expiration (fun x c => mkCursor (Value c) x) ].

#[export] Instance Cursor_zero : Zero Cursor := mkCursor "" "".
#[export] Instance Cursor_decodable : Decodable Cursor :=
  struct_decodable "blog.Cursor" Cursor_fields.

(** The field [Cursor] is [ListPaperDocsResponse_Cursor] here, since
    [Cursor] names its type. *)
Record ListPaperDocsResponse := mkListPaperDocsResponse {
  DocIDs : list string;
  ListPaperDocsResponse_Cursor : Cursor;
  HasMore : bool
}.

(** The tag of [HasMore] is written without its colon in the source. *)
Definition ListPaperDocsResponse_fields : list (Field ListPaperDocsResponse) :=
  [ field "DocIDs" (lit "json:'doc_ids'")
      DocIDs
      (fun x r => mkListPaperDocsResponse x (ListPaperDocsResponse_Cursor r) (HasMore r));
    field "Cursor" (lit "json:'cursor'")
      ListPaperDocsResponse_Cursor
      (fun x r => mkListPaperDocsResponse (DocIDs r) x (HasMore r));
    field "HasMore" (lit "json'has_more'")
      HasMore
      (fun x r => mkListPaperDocsResponse (DocIDs r) (ListPaperDocsResponse_Cursor r) x) ].

#[export] Instance ListPaperDocsResponse_zero : Zero ListPaperDocsResponse :=
  mkListPaperDocsResponse [] zero false.
#[export] Instance ListPaperDocsResponse_decodable : Decodable ListPaperDocsResponse :=
  struct_decodable "blog.ListPaperDocsResponse" ListPaperDocsResponse_fields.

(** [ListDocs] returns [&out] and the error of [rpc]; [in_] is the
    pointer it is given, [None] when nil. *)
Definition ListDocs (c : APIClient) (ctx : Context) (in_ : option ListPaperDocsArgs)
    : Prog (ListPaperDocsResponse * option error) :=
  let out : ListPaperDocsResponse := zero in
  rpc c ctx "https://api.dropboxapi.com/2/paper/docs/list" in_ out.

Definition ExportFormatMarkdown : string := "markdown".
Definition ExportFormatHTML : string := "html".

Record PaperDocExport := mkPaperDocExport {
  DocID : string;
  Format : string
}.

Definition PaperDocExport_fields : list (EField PaperDocExport) :=
  [ efield "DocID" (lit "json:'doc_id,omitempty'")
      DocID (fun x e => mkPaperDocExport x (Format e));
    efield (H := string_decodable "blog.ExportFormat")
      "Format" (lit "json:'export_format,omitempty'")
      Format (fun x e => mkPaperDocExport (DocID e) x) ].

#[export] Instance PaperDocExport_encodable : Encodable PaperDocExport :=
  struct_encodable PaperDocExport_fields.

Record PaperDocExportResult := mkPaperDocExportResult {
  Owner : string;
  Title : string;
  Revision : int64;
  MIME : string
}.

Definition PaperDocExportResult_fields : list (Field PaperDocExportResult) :=
  [ field "Owner" (lit "json:'owner'")
      Owner (fun x r => mkPaperDocExportResult x (Title r) (Revision r) (MIME r));
    field "Title" (lit "json:'title'")
      Title (fun x r => mkPaperDocExportResult (Owner r) x (Revision r) (MIME r));
    field (H := decodable_int64) "Revision" (lit "json:'revision'")
      Revision (fun x r => mkPaperDocExportResult (Owner r) (Title r) x (MIME r));
    field "MIME" (lit "json:'mime_type'")
      MIME (fun x r => mkPaperDocExportResult (Owner r) (Title r) (Revision r) x) ].

#[export] Instance PaperDocExportResult_zero : Zero PaperDocExportResult :=
  mkPaperDocExportResult "" "" 0%Z "".
#[export] Instance PaperDocExportResult_decodable : Decodable PaperDocExportResult :=
  struct_decodable "blog.PaperDocExportResult" PaperDocExportResult_fields.

Definition DownloadDoc (c : APIClient) (ctx : Context) (in_ : option PaperDocExport)
    : Prog (PaperDocExportResult * string * option error) :=
  let out : PaperDocExportResult := zero in
  content c ctx "https://api.dropboxapi.com/2/paper/docs/download" in_ out.

(** The field [DocID] is [RefPaperDoc_DocID] here, since
    [PaperDocExport] has a field of that name too. *)
Record RefPaperDoc := mkRefPaperDoc { RefPaperDoc_DocID : string }.

Definition RefPaperDoc_fields : list (EField RefPaperDoc) :=
  [ efield "DocID" (lit "json:'doc_id'") RefPaperDoc_DocID (fun x _ => mkRefPaperDoc x) ].

#[export] Instance RefPaperDoc_encodable : Encodable RefPaperDoc :=
  struct_encodable RefPaperDoc_fields.

Record Folder := mkFolder {
  ID : string;
  Name : string
}.

Definition Folder_fields : list (Field Folder) :=
  [ field "ID" (lit "json:'id'") ID (fun x f => mkFolder x (Name f));
    field "Name" (lit "json:'name'") Name (fun x f => mkFolder (ID f) x) ].

#[export] Instance Folder_zero : Zero Folder := mkFolder "" "".
#[export] Instance Folder_decodable : Decodable Folder :=
  struct_decodable "blog.Folder" Folder_fields.

Definition FolderSharingPolicyTeam : string := "team".
Definition FolderSharingPolicyInviteOnly : string := "invite_only".

Record FoldersContainingPaperDoc := mkFoldersContainingPaperDoc {
  FolderSharingPolicyType : string;
  Folders : list Folder
}.

Definition FoldersContainingPaperDoc_fields : list (Field FoldersContainingPaperDoc) :=
  [ field (H := string_decodable "blog.FolderSharingPolicyType")
      "FolderSharingPolicyType" ""
      FolderSharingPolicyType (fun x f => mkFoldersContainingPaperDoc x (Folders f));
    field "Folders" ""
      Folders (fun x f => mkFoldersContainingPaperDoc (FolderSharingPolicyType f) x) ].

#[export] Instance FoldersContainingPaperDoc_zero : Zero FoldersContainingPaperDoc :=
  mkFoldersContainingPaperDoc "" [].
#[export] Instance FoldersContainingPaperDoc_decodable : Decodable FoldersContainingPaperDoc :=
  struct_decodable "blog.FoldersContainingPaperDoc" FoldersContainingPaperDoc_fields.

Definition GetDocFolderInfo (c : APIClient) (ctx : Context) (in_ : option RefPaperDoc)
    : Prog (FoldersContainingPaperDoc * option error) :=
  let out : FoldersContainingPaperDoc := zero in
  rpc c ctx "https://api.dropboxapi.com/2/paper/docs/get_folder_info" in_ out.

(** * Notions used in the statements *)

(** A scan stays within a text of [len] bytes: it has not reached the
    recursion bound, and what it leaves unread is shorter than [len]. *)
Definition bounded {A} (len : nat) (x : scan A) : Prop :=
  match x with
  | Scanned _ r => String.length r < len
  | Exhausted => False
  | _ => True
  end.

(** The request [rpc] builds for a marshalled body. *)
Definition rpc_request (c : APIClient) (url body : string) : http.Request :=
  http.SetHeader
    (http.SetHeader (http.NewRequest "POST" url body)
       "Authorization" ("Bearer " +:+ Token c))
    "Content-Type" "application/json".

(** The request [content] builds for a marshalled body. *)
Definition content_request (c : APIClient) (url body : string) : http.Request :=
  http.SetHeader
    (http.SetHeader (http.NewRequest "POST" url body)
       "Authorization" ("Bearer " +:+ Token c))
    "Dropbox-API-Arg" body.

(** The program calls [Do] once, with a request that satisfies [P]. *)
Definition sends {A} (tr : Transport) (p : Prog A) (P : http.Request -> Prop) : Prop :=
  exists req, sent tr p = [req] /\ P req.

(** A remote side that answers every request with [resp]. *)
Definition answer (resp : http.Response) : Transport := fun _ _ => inl resp.

(** A response with at most one header field and a body that is
    delivered completely. *)
Definition response (status : Z) (hdr : option (string * string)) (body : string)
    : http.Response :=
  http.mkResponse status
    match hdr with
    | Some (k, v) => {[ k := [v] ]}
    | None => ∅
    end
    (io.complete body).

(** [tr] answers [resp] to what [p] sends. *)
Definition answers {A} (tr : Transport) (ctx : Context) (p : Prog A)
    (resp : http.Response) : Prop :=
  forall req, In req (sent tr p) -> tr ctx req = inl resp.

(** The error of a JSON value stored into a destination of another
    kind, or of a number that does not fit. *)
Definition is_type_error (e : json.error) : Prop :=
  match e with
  | UnmarshalTypeError _ _ => True
  | _ => False
  end.

(** The errors of [store] at a type are all type errors. *)
Class TypeErrorsOnly (A : Type) {D : Decodable A} : Prop :=
  store_type_error : forall j v v' e, store j v = (v', Some e) -> is_type_error e.

(** The errors of storing into a field are all type errors. *)
Definition field_typed {S} (f : Field S) : Prop :=
  forall j s s' e, fstore f j s = (s', Some e) -> is_type_error e.


(** A JSON object of strings, and the Go map it denotes: later members
    replace earlier ones of the same key. *)
Definition strings (m : list (string * string)) : list (string * value) :=
  map (fun kv => (fst kv, Str (snd kv))) m.



(** A string is plain when [encodeState.string] copies each of its
    bytes: printable ASCII without quote, backslash, [<], [>], [&]. *)
Definition plain (s : string) : Prop := all_bytes htmlSafe s = true.

(** The bytes that follow a member of an object. *)
Definition delimiter (c : ascii) : Prop := c = ","%char \/ c = "}"%char.

(** The text starts as a number does: with a minus sign or a digit. *)
Definition starts_number (s : string) : bool :=
  match s with
  | String c _ => Ascii.eqb c "-" || strconv.is_digit c
  | "" => false
  end.

(** The text [print] writes for a member of an object. *)
Definition member_text (kv : string * value) : string :=
  quote (fst kv) +:+ ":" +:+ print (snd kv).

(** A member that the scanner reads back: a plain key and a value that
    [val] reads back before a delimiter. *)
Definition member_ok (val : string -> scan value) (kv : string * value) : Prop :=
  plain (fst kv)
  /\ forall c r, delimiter c ->
       val (print (snd kv) +:+ String c r) = Scanned (snd kv) (String c r).

(** The values the encoder writes for the fields of a request: plain
    strings and decimal integers. *)
Definition flat_value (v : value) : Prop :=
  (exists s, v = Str s /\ plain s) \/ (exists z, v = Number (strconv.FormatInt z)).

(** A member with a plain key and such a value. *)
Definition flat_member (kv : string * value) : Prop :=
  plain (fst kv) /\ flat_value (snd kv).

(** A member that is left out when [empty]. *)
Definition optional (empty : bool) (kv : string * value) : list (string * value) :=
  if empty then [] else [kv].

(** The members [json.Marshal] writes for the arguments: each field
    that is not empty, under the key of its tag. *)
Definition args_members (a : ListPaperDocsArgs) : list (string * value) :=
  optional (String.eqb (FilterBy a) "") ("filter_by", Str (FilterBy a))
  ++ optional (String.eqb (SortBy a) "") ("sort_by", Str (SortBy a))
  ++ optional (String.eqb (SortOrder a) "") ("sort_order", Str (SortOrder a))
  ++ optional (Limit a =? 0)%Z ("limit", Number (strconv.FormatInt (Limit a))).

(** The [i]-th field of [ListPaperDocsArgs], as the decoder sees it. *)
Definition arg_field (i : nat) : Field ListPaperDocsArgs :=
  nth i (map base ListPaperDocsArgs_fields) (mkField "" "" (fun _ s => (s, None))).

(** The arguments the API defines: each enumerated field is empty or one
    of its declared constants, and the limit is an [int32]. *)
Definition valid_args (a : ListPaperDocsArgs) : Prop :=
  In (FilterBy a) [""; ListPaperDocsFilterByAccessed; ListPaperDocsFilterByModified;
                   ListPaperDocsFilterByCreated]
  /\ In (SortBy a) [""; ListPaperDocsSortByAccessed; ListPaperDocsSortByModified;
                    ListPaperDocsSortByCreated]
  /\ In (SortOrder a) [""; ListPaperDocsSortOrderAsc; ListPaperDocsSortOrderDesc]
  /\ in_range 32 (Limit a) = true.

(** ** Notions used in the further properties *)

(** [tr] fails with [e] on what [p] sends. *)
Definition refuses {A} (tr : Transport) (ctx : Context) (p : Prog A) (e : error) : Prop :=
  forall req, In req (sent tr p) -> tr ctx req = inr e.

(** A transport on which every call fails with [e]. *)
Definition refuse (e : error) : Transport := fun _ _ => inr e.

(** The request line and the header of a request. *)
Definition request_is (method url : string) (hdr : list (string * string))
    (body : string) (req : http.Request) : Prop :=
  http.Method req = method /\ http.URL req = url
  /\ http.Header req = list_to_map (map (fun kv => (fst kv, [snd kv])) hdr)
  /\ http.Body req = body.

(** The JSON objects of a cursor, of a folder and of the answer to
    [ListDocs], with the keys that the tags of the source name and, for
    the flag, the key [has_more] that the tag of [HasMore] was meant to
    name. *)
Definition cursor_json (c : Cursor) : value :=
  Object [("value", Str (Value c)); ("expiration", Str (Expiration c))].

Definition folder_json (f : Folder) : value :=
  Object [("id", Str (ID f)); ("name", Str (Name f))].

Definition list_docs_json (ids : list string) (c : Cursor) (more : bool) : value :=
  Object [("doc_ids", Array (map Str ids)); ("cursor", cursor_json c);
          ("has_more", Bool more)].

(** The body of [resp] starts with the JSON value [j]. *)
Definition body_starts_with (resp : http.Response) (j : value) : Prop :=
  exists rest, next_value (io.data (http.RespBody resp)) = Scanned j rest.

(** The [i]-th field of [ListPaperDocsResponse], as the decoder sees it. *)
Definition response_field (i : nat) : Field ListPaperDocsResponse :=
  nth i ListPaperDocsResponse_fields (mkField "" "" (fun _ s => (s, None))).

(** The [i]-th field of [FoldersContainingPaperDoc], as the decoder
    sees it. *)
Definition folders_field (i : nat) : Field FoldersContainingPaperDoc :=
  nth i FoldersContainingPaperDoc_fields (mkField "" "" (fun _ s => (s, None))).

(** The text of a member whose value is a string without escapes. *)
Definition string_member (k v : string) : string :=
  DQ +:+ k +:+ DQ +:+ ":" +:+ DQ +:+ v +:+ DQ.

(** The text [json.Marshal] writes for a [PaperDocExport] whose strings
    are plain: the fields that are not empty, separated by a comma. *)
Definition export_text (d f : string) : string :=
  "{" +:+ (if String.eqb d "" then "" else string_member "doc_id" d)
      +:+ (if String.eqb d "" || String.eqb f "" then "" else ",")
      +:+ (if String.eqb f "" then "" else string_member "export_format" f)
      +:+ "}".

(** The two request types are only marshalled by the client; the remote
    side decodes them.  These are their decoders, from the same field
    tables. *)
#[export] Instance PaperDocExport_zero : Zero PaperDocExport := mkPaperDocExport "" "".
#[export] Instance PaperDocExport_decodable : Decodable PaperDocExport :=
  struct_decodable "blog.PaperDocExport" (map base PaperDocExport_fields).
#[export] Instance RefPaperDoc_zero : Zero RefPaperDoc := mkRefPaperDoc "".
#[export] Instance RefPaperDoc_decodable : Decodable RefPaperDoc :=
  struct_decodable "blog.RefPaperDoc" (map base RefPaperDoc_fields).

(** The [i]-th field of [PaperDocExport], as the decoder sees it. *)
Definition export_field (i : nat) : Field PaperDocExport :=
  nth i (map base PaperDocExport_fields) (mkField "" "" (fun _ s => (s, None))).

(** A byte that is not a control character below the space. *)
Definition printable (c : ascii) : bool := (32 <=? byte c)%N.

(** The field [Metadata] of [APIError], as the decoder sees it. *)
Definition metadata_field : Field APIError :=
  nth 1 APIError_fields (mkField "" "" (fun _ s => (s, None))).

(** [k] opening brackets of arrays. *)
Fixpoint nest (k : nat) : string :=
  match k with
  | O => ""
  | S k' => String "[" (nest k')
  end.

(** * Properties of the model of [encoding/json] *)

(** ** The scanner stays within its recursion bound *)

Lemma bounded_map {A B} (f : A -> B) n x : bounded n x -> bounded n (scan_map f x).
Proof. destruct x; simpl; auto. Qed.

Lemma bounded_weaken {A} n m (x : scan A) : bounded n x -> n <= m -> bounded m x.
Proof. destruct x; simpl; auto; lia. Qed.

Lemma bounded_bind {A B} n (x : scan A) (k : A -> string -> scan B) :
  bounded n x ->
  (forall a r, String.length r < n -> bounded n (k a r)) ->
  bounded n (scan_bind x k).
Proof. destruct x; simpl; auto. Qed.

Lemma skip_space_length s : String.length (skip_space s) <= String.length s.
Proof. induction s as [|c s IH]; simpl; [lia |]. destruct (isSpace c); simpl; lia. Qed.

Lemma string_token_bounded s : bounded (String.length s) (string_token s).
Proof.
  remember (String.length s) as n eqn:Hn.
  assert (Hle : String.length s <= n) by lia. clear Hn.
  revert s Hle. induction n as [n IH] using lt_wf_ind. intros s Hle.
  destruct s as [|c t]; [exact I |]. simpl in Hle.
  assert (Hrec : forall t', String.length t' < n -> bounded n (string_token t')).
  { intros t' Ht. eapply bounded_weaken; [apply (IH (String.length t')); lia | lia]. }
  simpl. destruct (Ascii.eqb c dq); [simpl; lia |].
  destruct (Ascii.eqb c "\").
  - destruct t as [|e t']; [exact I |]. simpl in Hle.
    destruct (Ascii.eqb e "u").
    + destruct t' as [|h1 [|h2 [|h3 [|h4 t'']]]]; simpl in *;
        repeat match goal with |- context [if ?b then _ else _] => destruct b end;
        try exact I.
      apply bounded_map, Hrec. lia.
    + destruct (simple_escape e); [| exact I]. apply bounded_map, Hrec. lia.
  - destruct (byte c <? 32)%N; [exact I |]. apply bounded_map, Hrec. lia.
Qed.

Lemma string_value_bounded s : bounded (String.length s) (string_value s).
Proof.
  unfold string_value. pose proof (string_token_bounded s) as Hb.
  destruct (string_token s) as [raw r | | |]; simpl in *; auto.
  destruct (unquote _ raw); simpl; auto.
Qed.

Lemma span_digits_length s :
  String.length (snd (span_digits s)) <= String.length s.
Proof.
  induction s as [|c s IH]; simpl; [lia |].
  destruct (strconv.is_digit c); [| simpl; lia].
  destruct (span_digits s) as [ds r]. simpl in *. lia.
Qed.

Lemma digits1_bounded s k n :
  String.length s <= n ->
  (forall ds r, String.length r <= String.length s -> bounded (S n) (k ds r)) ->
  bounded (S n) (digits1 s k).
Proof.
  intros Hs Hk. unfold digits1. pose proof (span_digits_length s) as Hl.
  destruct (span_digits s) as [ds r]. simpl in Hl.
  destruct ds; [destruct r; exact I |]. apply Hk. exact Hl.
Qed.

Lemma exp_part_bounded l s : bounded (S (String.length s)) (exp_part l s).
Proof.
  unfold exp_part. destruct s as [|c t]; [simpl; lia |].
  destruct (Ascii.eqb c "e" || Ascii.eqb c "E"); [| simpl; lia].
  assert (Ht : forall sg t1, String.length t1 <= String.length t ->
                bounded (S (String.length (String c t)))
                  (digits1 t1 (fun ds r => Scanned (l +:+ String c sg +:+ ds) r))).
  { intros sg t1 Hl. eapply bounded_weaken.
    - apply (digits1_bounded _ _ (String.length t1)); [lia |].
      intros ds r Hr. simpl. lia.
    - simpl. lia. }
  destruct t as [|c1 t1]; [apply Ht; simpl; lia |].
  destruct c1 as [[] [] [] [] [] [] [] []]; apply Ht; simpl; lia.
Qed.

Lemma frac_part_bounded l s : bounded (S (String.length s)) (frac_part l s).
Proof.
  unfold frac_part.
  assert (He : bounded (S (String.length s)) (exp_part l s)) by apply exp_part_bounded.
  destruct s as [|c t]; [exact He |].
  destruct c as [[] [] [] [] [] [] [] []]; try exact He.
  eapply bounded_weaken.
  - apply (digits1_bounded _ _ (String.length t)); [lia |].
    intros ds r Hr. eapply bounded_weaken; [apply exp_part_bounded | lia].
  - simpl. lia.
Qed.

Lemma number_token_bounded s : bounded (String.length s) (number_token s).
Proof.
  unfold number_token.
  assert (Hn : forall sg s1, String.length s1 <= String.length s ->
            bounded (String.length s)
              match s1 with
              | "" => Short
              | String c t =>
                if Ascii.eqb c "0" then frac_part (sg +:+ "0") t
                else if strconv.is_digit c
                     then let '(ds, r) := span_digits t in frac_part (sg +:+ String c ds) r
                     else Invalid
              end).
  { intros sg s1 Hl. destruct s1 as [|c t]; [exact I |]. simpl in Hl.
    destruct (Ascii.eqb c "0").
    - eapply bounded_weaken; [apply frac_part_bounded | lia].
    - destruct (strconv.is_digit c); [| exact I].
      pose proof (span_digits_length t) as Hs. destruct (span_digits t) as [ds r].
      simpl in Hs. eapply bounded_weaken; [apply frac_part_bounded | lia]. }
  destruct s as [|c t]; [exact I |].
  destruct c as [[] [] [] [] [] [] [] []];
    first [exact I | apply (Hn "-" t); simpl; lia | apply (Hn "" (String _ t)); simpl; lia].
Qed.

Lemma keyword_bounded kw v s : bounded (S (String.length s)) (keyword kw v s).
Proof.
  revert s. induction kw as [|k kw IH]; intros s; simpl; [lia |].
  destruct s as [|c t]; [exact I |]. destruct (Ascii.eqb c k); [| exact I].
  eapply bounded_weaken; [apply IH | simpl; lia].
Qed.

(** The tail of a non-empty text after its white space. *)
Lemma skip_space_cons s c t :
  skip_space s = String c t -> String.length t < String.length s.
Proof. intros H. pose proof (skip_space_length s) as Hl. rewrite H in Hl. simpl in Hl. lia. Qed.

Lemma members_bounded n val : forall acc s,
  String.length s < n ->
  (forall t, String.length t < String.length s -> bounded (String.length t) (val t)) ->
  bounded (String.length s) (members n val acc s).
Proof.
  induction n as [|n IH]; intros acc s Hn Hval; [lia |]. simpl.
  destruct (skip_space s) as [|c t] eqn:Hs; [exact I |].
  apply skip_space_cons in Hs.
  destruct (Ascii.eqb c dq); [| exact I].
  apply bounded_bind.
  { eapply bounded_weaken; [apply string_value_bounded | lia]. }
  intros k r1 Hr1.
  destruct (skip_space r1) as [|c1 t1] eqn:H1; [exact I |].
  apply skip_space_cons in H1.
  destruct (Ascii.eqb c1 ":"); [| exact I].
  apply bounded_bind.
  { eapply bounded_weaken; [apply Hval; lia | lia]. }
  intros v r2 Hr2.
  destruct (skip_space r2) as [|c2 t2] eqn:H2; [exact I |].
  apply skip_space_cons in H2.
  destruct (Ascii.eqb c2 ",").
  - eapply bounded_weaken; [apply IH; [lia |] | lia].
    intros t' Ht'. apply Hval. lia.
  - destruct (Ascii.eqb c2 "}"); [simpl; lia | exact I].
Qed.

Lemma elements_bounded n val : forall acc s,
  String.length s < n ->
  (forall t, String.length t <= String.length s -> bounded (String.length t) (val t)) ->
  bounded (String.length s) (elements n val acc s).
Proof.
  induction n as [|n IH]; intros acc s Hn Hval; [lia |]. simpl.
  apply bounded_bind; [apply Hval; lia |].
  intros v r Hr.
  destruct (skip_space r) as [|c t] eqn:Hs; [exact I |].
  apply skip_space_cons in Hs.
  destruct (Ascii.eqb c ",").
  - eapply bounded_weaken; [apply IH; [lia |] | lia].
    intros t' Ht'. apply Hval. lia.
  - destruct (Ascii.eqb c "]"); [simpl; lia | exact I].
Qed.

Lemma scan_value_bounded n : forall d s,
  String.length s < n -> bounded (String.length s) (scan_value n d s).
Proof.
  induction n as [|n IH]; intros d s Hn; [lia |]. cbn [scan_value].
  destruct (skip_space s) as [|c t] eqn:Hs; [exact I |].
  apply skip_space_cons in Hs.
  repeat match goal with
         | |- bounded _ (if ?b then _ else _) => destruct b
         end.
  - exact I.
  - destruct (skip_space t) as [|c' t'] eqn:Ht; [exact I |].
    apply skip_space_cons in Ht.
    destruct (Ascii.eqb c' "}"); [simpl; lia |].
    eapply bounded_weaken; [apply members_bounded; [lia |] | lia].
    intros t0 Ht0. apply IH. lia.
  - exact I.
  - destruct (skip_space t) as [|c' t'] eqn:Ht; [exact I |].
    apply skip_space_cons in Ht.
    destruct (Ascii.eqb c' "]"); [simpl; lia |].
    eapply bounded_weaken; [apply elements_bounded; [lia |] | lia].
    intros t0 Ht0. apply IH. lia.
  - apply bounded_map. eapply bounded_weaken; [apply string_value_bounded | lia].
  - eapply bounded_weaken; [apply (keyword_bounded "rue" (Bool true) t) | lia].
  - eapply bounded_weaken; [apply (keyword_bounded "alse" (Bool false) t) | lia].
  - eapply bounded_weaken; [apply (keyword_bounded "ull" Null t) | lia].
  - apply bounded_map. eapply bounded_weaken; [apply number_token_bounded | simpl; lia].
  - exact I.
Qed.

(** The recursion bound of [next_value] is never reached, and a scanned
    value has consumed at least one byte. *)
Lemma next_value_not_exhausted s :
  next_value s <> Exhausted
  /\ forall v r, next_value s = Scanned v r -> String.length r < String.length s.
Proof.
  pose proof (scan_value_bounded (S (String.length s)) 0 s (Nat.lt_succ_diag_r _)) as Hb.
  unfold next_value. destruct (scan_value _ _ s); simpl in Hb; split; try discriminate;
    try contradiction; intros v r' [= _ <-]; exact Hb.
Qed.

(** ** The other recursion bounds

    [appendString], [unquote] and [Lookup] recurse on a text that they
    shorten at each step; their results do not depend on the bound once
    it covers the length of the text. *)

Lemma sdrop_length k s : String.length (sdrop k s) <= String.length s.
Proof.
  revert s. induction k as [|k IH]; intros s; simpl; [lia |].
  destruct s as [|c t]; simpl; [lia |]. specialize (IH t). lia.
Qed.

Lemma sdrop_cons_length k c t :
  1 <= k -> String.length (sdrop k (String c t)) <= String.length t.
Proof. destruct k as [|k]; [lia |]. intros _. simpl. apply sdrop_length. Qed.

Lemma DecodeRune_size c t : 1 <= snd (utf8.DecodeRuneInString (String c t)).
Proof.
  unfold utf8.DecodeRuneInString.
  repeat match goal with
         | |- context [if ?b then _ else _] => destruct b
         | |- context [match ?s with "" => _ | String _ _ => _ end] => destruct s
         end; simpl; lia.
Qed.

Lemma appendString_fuel n1 : forall n2 s,
  String.length s <= n1 -> String.length s <= n2 ->
  appendString n1 s = appendString n2 s.
Proof.
  induction n1 as [|n1 IH]; intros n2 s H1 H2.
  - destruct s; [destruct n2; reflexivity | simpl in H1; lia].
  - destruct s as [|c t]; [destruct n2; reflexivity |].
    destruct n2 as [|n2]; [simpl in H2; lia |]. simpl in H1, H2.
    cbn [appendString].
    pose proof (DecodeRune_size c t) as Hsz.
    destruct (utf8.DecodeRuneInString (String c t)) as [r size]. simpl in Hsz.
    pose proof (sdrop_cons_length size c t Hsz) as Hd.
    repeat match goal with
           | |- context [if ?b then _ else _] => destruct b
           end; f_equal; apply IH; lia.
Qed.

Lemma unquote_fuel n1 : forall n2 s,
  String.length s <= n1 -> String.length s <= n2 ->
  unquote n1 s = unquote n2 s.
Proof.
  induction n1 as [|n1 IH]; intros n2 s H1 H2.
  - destruct s; [destruct n2; reflexivity | simpl in H1; lia].
  - destruct s as [|c t]; [destruct n2; reflexivity |].
    destruct n2 as [|n2]; [simpl in H2; lia |]. simpl in H1, H2.
    cbn [unquote].
    pose proof (DecodeRune_size c t) as Hsz.
    destruct (utf8.DecodeRuneInString (String c t)) as [r size]. simpl in Hsz.
    pose proof (sdrop_cons_length size c t Hsz) as Hd.
    pose proof (sdrop_cons_length 6 c t ltac:(lia)) as H6.
    pose proof (sdrop_length 6 (sdrop 6 (String c t))) as H12.
    remember (sdrop 6 (String c t)) as r6 eqn:E6.
    remember (sdrop size (String c t)) as rs eqn:Es.
    destruct (Ascii.eqb c "\").
    + destruct t as [|e t']; [reflexivity |].
      destruct (Ascii.eqb e "u").
      * destruct (getu4 (String c (String e t'))); [| reflexivity].
        repeat match goal with
               | |- context [if ?b then _ else _] => destruct b
               end; f_equal; apply IH; lia.
      * destruct (simple_escape e); [| reflexivity]. f_equal.
        simpl in H1, H2. apply IH; lia.
    + repeat match goal with
             | |- context [if ?b then _ else _] => destruct b
             end; try reflexivity; f_equal; apply IH; lia.
Qed.

Lemma span_length p s : String.length (snd (span p s)) <= String.length s.
Proof.
  induction s as [|c s IH]; simpl; [lia |].
  destruct (p c); [| simpl; lia]. destruct (span p s). simpl in *. lia.
Qed.

Lemma quoted_end_length s : forall v r,
  quoted_end s = Some (v, r) -> String.length r < String.length s.
Proof.
  remember (String.length s) as n eqn:Hn.
  assert (Hle : String.length s <= n) by lia. clear Hn.
  revert s Hle. induction n as [n IH] using lt_wf_ind. intros s Hle v r.
  destruct s as [|c t]; [discriminate |]. simpl in Hle. simpl.
  destruct (Ascii.eqb c dq); [intros [= _ <-]; simpl; lia |].
  destruct (Ascii.eqb c "\").
  - destruct t as [|e t']; [discriminate |]. simpl in Hle.
    destruct (quoted_end t') as [[v' r']|] eqn:Hq; [| discriminate].
    intros [= _ <-]. apply (IH (String.length t')) in Hq; simpl; lia.
  - destruct (quoted_end t) as [[v' r']|] eqn:Hq; [| discriminate].
    intros [= _ <-]. apply (IH (String.length t)) in Hq; simpl; lia.
Qed.

Lemma Lookup_fuel n1 : forall n2 tag key,
  String.length tag <= n1 -> String.length tag <= n2 ->
  Lookup n1 tag key = Lookup n2 tag key.
Proof.
  induction n1 as [|n1 IH]; intros n2 tag key H1 H2.
  - destruct tag; [destruct n2; reflexivity | simpl in H1; lia].
  - destruct n2 as [|n2]; [destruct tag; [reflexivity | simpl in H2; lia] |].
    cbn [Lookup].
    pose proof (span_length (fun c => Ascii.eqb c " ") tag) as Hs.
    destruct (span (fun c => Ascii.eqb c " ") tag) as [sp tag']. cbn [snd] in *.
    pose proof (span_length tag_name_byte tag') as Hn.
    destruct (span tag_name_byte tag') as [name rest]. cbn [snd] in Hn.
    destruct name as [|c0 name]; [reflexivity |].
    destruct rest as [|c1 [|c2 r]]; try reflexivity;
      destruct c1 as [[] [] [] [] [] [] [] []]; try reflexivity.
    destruct c2 as [[] [] [] [] [] [] [] []]; try reflexivity.
    destruct (quoted_end r) as [[v rest']|] eqn:Hq; [| reflexivity].
    apply quoted_end_length in Hq. simpl in Hn.
    destruct (String.eqb _ key); [reflexivity |]. apply IH; lia.
Qed.

(** * Properties of the client *)

(** ** The requests the two call shapes send *)

(** Case analysis on the answer of the transport and on what the
    decoders return. *)
Ltac answer_cases :=
  repeat match goal with
         | |- context [match ?tr ?ctx ?req with inl _ => _ | inr _ => _ end] =>
           destruct (tr ctx req) as [?resp | ?err] eqn:?; simpl
         | |- context [if negb ?b then _ else _] => destruct b eqn:?; simpl
         | |- context [Decode ?r ?v] => destruct (Decode r v) as [? [?|]] eqn:?; simpl
         | |- context [Unmarshal ?r ?v] => destruct (Unmarshal r v) as [? [?|]] eqn:?; simpl
         | |- context [if ?b then _ else _] => destruct b eqn:?; simpl
         end.

Lemma run_rpc {I O} `{Encodable I, Decodable O}
    (tr : Transport) c ctx url (in_ : I) (out : O) :
  sent tr (rpc c ctx url in_ out) = [rpc_request c url (print (encode in_))].
Proof.
  unfold sent, rpc, Marshal, rpc_request. simpl.
  answer_cases; reflexivity.
Qed.

Lemma run_content {I O} `{Encodable I, Decodable O}
    (tr : Transport) c ctx url (in_ : I) (out : O) :
  sent tr (content c ctx url in_ out) = [content_request c url (print (encode in_))].
Proof.
  unfold sent, content, Marshal, content_request. simpl.
  answer_cases; reflexivity.
Qed.

Lemma canonical_authorization :
  http.CanonicalMIMEHeaderKey "Authorization" = "Authorization".
Proof. reflexivity. Qed.

Lemma canonical_content_type :
  http.CanonicalMIMEHeaderKey "Content-Type" = "Content-Type".
Proof. reflexivity. Qed.

Lemma canonical_api_arg :
  http.CanonicalMIMEHeaderKey "Dropbox-API-Arg" = "Dropbox-Api-Arg".
Proof. reflexivity. Qed.

Lemma canonical_api_result :
  http.CanonicalMIMEHeaderKey "Dropbox-API-Result" = "Dropbox-Api-Result".
Proof. reflexivity. Qed.

Lemma rpc_request_authorization c url body :
  http.Header (rpc_request c url body) !! "Authorization" = Some ["Bearer " +:+ Token c].
Proof.
  unfold rpc_request, http.SetHeader, http.Set_. simpl.
  rewrite canonical_authorization, canonical_content_type.
  rewrite lookup_insert_ne by discriminate.
  apply lookup_insert_eq.
Qed.

Lemma content_request_authorization c url body :
  http.Header (content_request c url body) !! "Authorization" = Some ["Bearer " +:+ Token c].
Proof.
  unfold content_request, http.SetHeader, http.Set_. simpl.
  rewrite canonical_authorization, canonical_api_arg.
  rewrite lookup_insert_ne by discriminate.
  apply lookup_insert_eq.
Qed.

(** C5: whatever the arguments and whatever the transport answers, each
    of [ListDocs], [DownloadDoc] and [GetDocFolderInfo] sends one
    request, and that request has the header [Authorization] with the
    single value [Bearer <token>], for the token given to [NewClient]. *)
Theorem every_request_carries_the_bearer_token
    (token : string) (tr : Transport) (ctx : Context) :
  let carries req := http.Header req !! "Authorization" = Some ["Bearer " +:+ token] in
  (forall in_, sends tr (ListDocs (NewClient token) ctx in_) carries)
  /\ (forall in_, sends tr (DownloadDoc (NewClient token) ctx in_) carries)
  /\ (forall in_, sends tr (GetDocFolderInfo (NewClient token) ctx in_) carries).
Proof.
  intros carries. unfold sends, carries, ListDocs, DownloadDoc, GetDocFolderInfo.
  repeat split; intros in_; eexists; split;
    try apply run_rpc; try apply run_content;
    first [apply rpc_request_authorization | apply content_request_authorization].
Qed.

(** ** Transports used in examples *)

Lemma answers_rpc {I O} `{Encodable I, Decodable O}
    tr c ctx url (in_ : I) (out : O) resp :
  answers tr ctx (rpc c ctx url in_ out) resp ->
  tr ctx (rpc_request c url (print (encode in_))) = inl resp.
Proof. intros Ha. apply Ha. rewrite run_rpc. now left. Qed.

Lemma answers_content {I O} `{Encodable I, Decodable O}
    tr c ctx url (in_ : I) (out : O) resp :
  answers tr ctx (content c ctx url in_ out) resp ->
  tr ctx (content_request c url (print (encode in_))) = inl resp.
Proof. intros Ha. apply Ha. rewrite run_content. now left. Qed.

Lemma answer_answers {A} resp ctx (p : Prog A) : answers (answer resp) ctx p resp.
Proof. intros req _. reflexivity. Defined.

(** What the two call shapes return once the transport has answered. *)
Lemma result_rpc {I O} `{Encodable I, Decodable O}
    tr c ctx url (in_ : I) (out : O) resp :
  answers tr ctx (rpc c ctx url in_ out) resp ->
  result tr (rpc c ctx url in_ out) =
    if negb (http.StatusCode resp =? http.StatusOK)%Z then
      match Decode (http.RespBody resp) (zero : APIError) with
      | (_, Some e) => (out, Some (JSONError e))
      | (apierr, None) => (out, Some (APIErr apierr))
      end
    else
      let '(out', err) := Decode (http.RespBody resp) out in (out', JSONError <$> err).
Proof.
  intros Ha%answers_rpc. unfold result, rpc, Marshal, rpc_request in *. simpl.
  rewrite Ha. answer_cases; reflexivity.
Qed.

Lemma result_content {I O} `{Encodable I, Decodable O}
    tr c ctx url (in_ : I) (out : O) resp :
  answers tr ctx (content c ctx url in_ out) resp ->
  result tr (content c ctx url in_ out) =
    if negb (http.StatusCode resp =? http.StatusOK)%Z then
      match Decode (http.RespBody resp) (zero : APIError) with
      | (_, Some e) => (out, "", Some (JSONError e))
      | (apierr, None) => (out, "", Some (APIErr apierr))
      end
    else
      let h := http.Get (http.RespHeader resp) "Dropbox-API-Result" in
      match (if negb (String.eqb h "") then Unmarshal h out else (out, None)) with
      | (out', Some e) => (out', "", Some (JSONError e))
      | (out', None) =>
        (out', io.data (http.RespBody resp),
         IOError <$> (io.Failure <$> io.failure (http.RespBody resp)))
      end.
Proof.
  intros Ha%answers_content. unfold result, content, Marshal, content_request in *. simpl.
  rewrite Ha. answer_cases; reflexivity.
Qed.

(** ** The request of a content call *)

Lemma content_request_headers c url body :
  http.Header (content_request c url body) !! "Dropbox-Api-Arg" = Some [body]
  /\ http.Header (content_request c url body) !! "Content-Type" = None.
Proof.
  unfold content_request, http.SetHeader, http.Set_. simpl.
  rewrite canonical_authorization, canonical_api_arg. split.
  - apply lookup_insert_eq.
  - rewrite !lookup_insert_ne by discriminate. apply lookup_empty.
Qed.

Lemma marshal_ptr_not_empty {A} (fs : list (EField A)) (in_ : option A) :
  fst (Marshal (H := encodable_ptr (H := struct_encodable fs)) in_) <> "".
Proof. destruct in_; discriminate. Qed.

(** C1, as the code has it: [DownloadDoc] sends one request; its header
    [Dropbox-API-Arg] holds the marshalled argument, it has no
    [Content-Type] field, and its body is the same marshalled argument,
    which is never empty. *)
Theorem download_request_carries_argument_in_header_and_body
    (c : APIClient) (ctx : Context) (in_ : option PaperDocExport) (tr : Transport) :
  let arg := fst (Marshal in_) in
  sends tr (DownloadDoc c ctx in_) (fun req =>
    http.Header req !! "Dropbox-Api-Arg" = Some [arg]
    /\ http.Get (http.Header req) "Dropbox-API-Arg" = arg
    /\ http.Header req !! "Content-Type" = None
    /\ http.Body req = arg)
  /\ arg <> "".
Proof.
  intros arg. split.
  - unfold sends, DownloadDoc. eexists. split; [apply run_content |].
    change arg with (print (encode in_)).
    destruct (content_request_headers c
                "https://api.dropboxapi.com/2/paper/docs/download"
                (print (encode in_))) as [Ha Hc].
    unfold http.Get. rewrite canonical_api_arg, Ha.
    repeat split; try assumption; reflexivity.
  - apply marshal_ptr_not_empty.
Qed.

(** C1 as stated fails: for the export request of document [d1] as
    markdown the body of the request is the marshalled argument, not
    the empty body. *)
Lemma download_request_body_is_not_empty :
  ~ (forall req,
       In req (sent (answer (response 200 None "data"))
                 (DownloadDoc (NewClient "tok") Background
                    (Some (mkPaperDocExport "d1" ExportFormatMarkdown)))) ->
       http.Body req = "").
Proof.
  intros Hall. unfold DownloadDoc in Hall. rewrite run_content in Hall.
  specialize (Hall _ (or_introl eq_refl)). discriminate Hall.
Qed.

(** ** Content calls answered with status 200 *)

Lemma get_absent (h : gmap string (list string)) :
  h !! "Dropbox-Api-Result" = None -> http.Get h "Dropbox-API-Result" = "".
Proof. intros Hn. unfold http.Get. rewrite canonical_api_result, Hn. reflexivity. Qed.

(** C2, as the code has it: on status 200 the body is read to its end
    and returned, with the error of reading it if any, when the header
    [Dropbox-API-Result] is absent or empty or decodes without error;
    when the header is not empty and does not decode, the call returns
    that error and no content, and the body is not read. *)
Theorem download_content_depends_on_header_decoding
    (c : APIClient) (ctx : Context) (in_ : option PaperDocExport)
    (tr : Transport) (resp : http.Response) :
  answers tr ctx (DownloadDoc c ctx in_) resp ->
  http.StatusCode resp = http.StatusOK ->
  let h := http.Get (http.RespHeader resp) "Dropbox-API-Result" in
  let decoded := Unmarshal h (zero : PaperDocExportResult) in
  let r := result tr (DownloadDoc c ctx in_) in
  (h = "" ->
   r = (zero, io.data (http.RespBody resp),
        IOError <$> snd (io.ReadAll (http.RespBody resp))))
  /\ (h <> "" -> snd decoded = None ->
      r = (fst decoded, io.data (http.RespBody resp),
           IOError <$> snd (io.ReadAll (http.RespBody resp))))
  /\ (forall e, h <> "" -> snd decoded = Some e ->
      r = (fst decoded, "", Some (JSONError e))).
Proof.
  intros Ha Hs h decoded r. subst r. unfold DownloadDoc in *.
  rewrite (result_content _ _ _ _ _ _ _ Ha), Hs. simpl. fold h.
  repeat split.
  - intros ->. reflexivity.
  - intros Hne Hd. apply String.eqb_neq in Hne. rewrite Hne. simpl.
    fold decoded. destruct decoded as [o e]. simpl in Hd. subst e. reflexivity.
  - intros e Hne Hd. apply String.eqb_neq in Hne. rewrite Hne. simpl.
    fold decoded. destruct decoded as [o e']. simpl in Hd. subst e'. reflexivity.
Qed.

Lemma download_content_depends_on_header_decoding_witness :
  result (answer (response 200 (Some ("Dropbox-Api-Result", lit "{'revision':7}")) "data"))
    (DownloadDoc (NewClient "tok") Background
       (Some (mkPaperDocExport "d1" ExportFormatMarkdown)))
  = (mkPaperDocExportResult "" "" 7%Z "", "data", None).
Proof.
  destruct (download_content_depends_on_header_decoding
              (NewClient "tok") Background
              (Some (mkPaperDocExport "d1" ExportFormatMarkdown))
              (answer (response 200 (Some ("Dropbox-Api-Result", lit "{'revision':7}")) "data"))
              (response 200 (Some ("Dropbox-Api-Result", lit "{'revision':7}")) "data"))
    as (_ & Hd & _).
  - apply answer_answers.
  - reflexivity.
  - rewrite Hd; [vm_compute; reflexivity | vm_compute; discriminate | vm_compute; reflexivity].
Defined.

(** C2 as stated fails: with status 200, a header [Dropbox-API-Result]
    that is not JSON and the body [data], the call fails and returns no
    content. *)
Lemma download_with_malformed_header_returns_no_content :
  let resp := response 200 (Some ("Dropbox-Api-Result", "{")) "data" in
  let r := result (answer resp)
             (DownloadDoc (NewClient "tok") Background
                (Some (mkPaperDocExport "d1" ExportFormatMarkdown))) in
  r = (zero, "", Some (JSONError SyntaxError))
  /\ snd (fst r) <> io.data (http.RespBody resp).
Proof.
  intros resp r. subst r. unfold DownloadDoc.
  rewrite (result_content _ _ _ _ _ _ _ (answer_answers resp _ _)).
  split; [vm_compute; reflexivity | vm_compute; discriminate].
Qed.

(** C7: a download answered with status 200, the body [hello world] and
    the header [Dropbox-API-Result] of the example succeeds; the
    metadata has revision 3 (and the owner, title and MIME type of the
    header) and the content is [hello world]. *)
Theorem download_returns_header_metadata_and_body
    (c : APIClient) (ctx : Context) (in_ : option PaperDocExport)
    (tr : Transport) (resp : http.Response) :
  answers tr ctx (DownloadDoc c ctx in_) resp ->
  http.StatusCode resp = 200%Z ->
  http.Get (http.RespHeader resp) "Dropbox-API-Result"
    = lit "{'owner':'u1','title':'Doc','revision':3,'mime_type':'text/markdown'}" ->
  http.RespBody resp = io.complete "hello world" ->
  let r := result tr (DownloadDoc c ctx in_) in
  r = (mkPaperDocExportResult "u1" "Doc" 3%Z "text/markdown", "hello world", None)
  /\ Revision (fst (fst r)) = 3%Z.
Proof.
  intros Ha Hs Hh Hb r. subst r. unfold DownloadDoc in *.
  rewrite (result_content _ _ _ _ _ _ _ Ha), Hs, Hh, Hb.
  split; vm_compute; reflexivity.
Qed.

Lemma download_returns_header_metadata_and_body_witness :
  let resp := response 200
                (Some ("Dropbox-Api-Result",
                       lit "{'owner':'u1','title':'Doc','revision':3,'mime_type':'text/markdown'}"))
                "hello world" in
  let r := result (answer resp)
             (DownloadDoc (NewClient "tok") Background
                (Some (mkPaperDocExport "d1" ExportFormatMarkdown))) in
  r = (mkPaperDocExportResult "u1" "Doc" 3%Z "text/markdown", "hello world", None)
  /\ Revision (fst (fst r)) = 3%Z.
Proof.
  intros resp.
  apply (download_returns_header_metadata_and_body
           (NewClient "tok") Background
           (Some (mkPaperDocExport "d1" ExportFormatMarkdown)) (answer resp) resp).
  - apply answer_answers.
  - reflexivity.
  - vm_compute. reflexivity.
  - reflexivity.
Defined.

(** C8, as the code has it: a download answered with status 200 and
    without the header [Dropbox-API-Result] returns the zero metadata,
    the bytes of the body that were read, and the error of reading the
    body if there is one; when the body is delivered to its end, the
    call succeeds and the content is the whole body. *)
Theorem download_without_header_returns_zero_metadata_and_body
    (c : APIClient) (ctx : Context) (in_ : option PaperDocExport)
    (tr : Transport) (resp : http.Response) :
  answers tr ctx (DownloadDoc c ctx in_) resp ->
  http.StatusCode resp = 200%Z ->
  http.RespHeader resp !! "Dropbox-Api-Result" = None ->
  result tr (DownloadDoc c ctx in_)
    = (mkPaperDocExportResult "" "" 0%Z "", io.data (http.RespBody resp),
       (fun cause => IOError (io.Failure cause)) <$> io.failure (http.RespBody resp))
  /\ (io.failure (http.RespBody resp) = None ->
      result tr (DownloadDoc c ctx in_)
        = (mkPaperDocExportResult "" "" 0%Z "", io.data (http.RespBody resp), None)).
Proof.
  intros Ha Hs Hh. unfold DownloadDoc in *.
  rewrite (result_content _ _ _ _ _ _ _ Ha), Hs, (get_absent _ Hh).
  split.
  - simpl. destruct (io.failure (http.RespBody resp)); reflexivity.
  - intros Hb. simpl. rewrite Hb. reflexivity.
Qed.

Lemma download_without_header_returns_zero_metadata_and_body_witness :
  result (answer (response 200 None "data"))
    (DownloadDoc (NewClient "tok") Background
       (Some (mkPaperDocExport "d1" ExportFormatMarkdown)))
  = (mkPaperDocExportResult "" "" 0%Z "", "data", None).
Proof.
  destruct (download_without_header_returns_zero_metadata_and_body
              (NewClient "tok") Background
              (Some (mkPaperDocExport "d1" ExportFormatMarkdown))
              (answer (response 200 None "data")) (response 200 None "data"))
    as [_ Hd].
  - apply answer_answers.
  - reflexivity.
  - reflexivity.
  - apply Hd. reflexivity.
Defined.

(** C8 as stated fails: with status 200, no header [Dropbox-API-Result]
    and a body whose connection breaks after the bytes [da], the call
    does not succeed: it returns the read error, with the bytes read so
    far. *)
Lemma download_without_header_and_broken_body_fails :
  let resp := http.mkResponse 200 ∅ (io.mkReader "da" (Some "reset")) in
  let r := result (answer resp)
             (DownloadDoc (NewClient "tok") Background
                (Some (mkPaperDocExport "d1" ExportFormatMarkdown))) in
  http.RespHeader resp !! "Dropbox-Api-Result" = None
  /\ r = (zero, "da", Some (IOError (io.Failure "reset")))
  /\ snd r <> None.
Proof.
  intros resp r. subst r. unfold DownloadDoc.
  rewrite (result_content _ _ _ _ _ _ _ (answer_answers resp _ _)).
  split; [reflexivity |]. split; [vm_compute; reflexivity | vm_compute; discriminate].
Qed.

(** ** What the decoder can report once a value has been scanned *)

Lemma saveError_cases (P : json.error -> Prop) e1 e2 e :
  saveError e1 e2 = Some e ->
  (forall x, e1 = Some x -> P x) -> (forall x, e2 = Some x -> P x) -> P e.
Proof. destruct e1; simpl; intros He H1 H2; [apply H1 | apply H2]; assumption. Qed.

Lemma string_store_typed tn : TypeErrorsOnly (D := string_decodable tn) string.
Proof. intros [] v v' e; simpl; intros [= _ <-] || intros [=]; exact I. Qed.

#[export] Instance typed_string : TypeErrorsOnly string := string_store_typed "string".

#[export] Instance typed_bool : TypeErrorsOnly bool.
Proof. intros [] v v' e; simpl; intros [= _ <-] || intros [=]; exact I. Qed.

Lemma int_store_typed bits tn j v v' e :
  int_store bits tn j v = (v', Some e) -> is_type_error e.
Proof.
  destruct j; simpl; try (intros [= _ <-]; exact I); try (intros [=]; fail).
  destruct (strconv.ParseInt literal); [destruct (in_range bits z) |];
    intros [= _ <-] || intros [=]; exact I.
Qed.

#[export] Instance typed_slice {A} `{Zero A, TypeErrorsOnly A} : TypeErrorsOnly (list A).
Proof.
  intros j v v' e. destruct j as [| b | l | s | js | ms]; simpl;
    try (intros [= _ <-]; exact I); try (intros [=]; fail).
  revert v v' e. induction js as [|j js IH]; intros v v' e; simpl; [intros [=] |].
  destruct (store j (hd zero v)) as [x e1] eqn:Hx.
  destruct (store_elems js (tl v)) as [xs e2] eqn:Hxs.
  intros [= _ He]. apply (saveError_cases _ _ _ _ He).
  - intros y ->. eapply store_type_error, Hx.
  - intros y ->. eapply IH, Hxs.
Qed.

#[export] Instance typed_map {A} `{Zero A, TypeErrorsOnly A} : TypeErrorsOnly (gmap string A).
Proof.
  intros j v v' e. destruct j as [| b | l | s | js | ms]; simpl;
    try (intros [= _ <-]; exact I); try (intros [=]; fail).
  revert v v' e. induction ms as [|[k j] ms IH]; intros v v' e; simpl; [intros [=] |].
  destruct (store j zero) as [x e1] eqn:Hx.
  destruct (store_entries ms (<[k:=x]> v)) as [m' e2] eqn:Hm.
  intros [= _ He]. apply (saveError_cases _ _ _ _ He).
  - intros y ->. eapply store_type_error, Hx.
  - intros y ->. eapply IH, Hm.
Qed.

Lemma field_is_typed {S T} `{TypeErrorsOnly T} name tag (get : S -> T) set :
  field_typed (field name tag get set).
Proof.
  intros j s s' e. unfold field. simpl.
  destruct (store j (get s)) as [t e1] eqn:Ht. intros [= _ ->].
  eapply store_type_error, Ht.
Qed.

Lemma find_field_in {S} (fs : list (Field S)) k f : find_field fs k = Some f -> In f fs.
Proof.
  assert (Hk : forall kf, In kf (keyed fs) -> In (snd kf) fs).
  { unfold keyed. induction fs as [|g fs IH]; simpl; [tauto |].
    destruct (json_key (goName g) (tag g)); simpl; intuition (subst; auto). }
  unfold find_field.
  destruct (find _ (keyed fs)) as [kf|] eqn:H1.
  - intros [= <-]. apply Hk. eapply find_some, H1.
  - destruct (find (fun kf => String.eqb (foldName _) _) (keyed fs)) as [kf|] eqn:H2;
      simpl; [| discriminate].
    intros [= <-]. apply Hk. eapply find_some, H2.
Qed.

Lemma struct_is_typed {S} tn (fs : list (Field S)) :
  Forall field_typed fs -> TypeErrorsOnly (D := struct_decodable tn fs) S.
Proof.
  intros Hfs j v v' e. destruct j as [| b | l | s | js | ms]; simpl;
    try (intros [= _ <-]; exact I); try (intros [=]; fail).
  revert v v' e. induction ms as [|[k j] ms IH]; intros v v' e; simpl; [intros [=] |].
  destruct (find_field fs k) as [f|] eqn:Hf.
  - destruct (fstore f j v) as [s1 e1] eqn:H1.
    destruct (store_members fs ms s1) as [s2 e2] eqn:H2.
    intros [= _ He]. apply (saveError_cases _ _ _ _ He).
    + intros y ->. apply find_field_in in Hf.
      rewrite List.Forall_forall in Hfs. eapply (Hfs f Hf), H1.
    + intros y ->. eapply IH, H2.
  - destruct (store_members fs ms v) as [s2 e2] eqn:H2.
    intros [= _ He]. simpl in He. subst e2. eapply IH, H2.
Qed.

#[export] Instance typed_Cursor : TypeErrorsOnly Cursor.
Proof. apply struct_is_typed. repeat constructor; apply field_is_typed. Qed.

#[export] Instance typed_Folder : TypeErrorsOnly Folder.
Proof. apply struct_is_typed. repeat constructor; apply field_is_typed. Qed.

#[export] Instance typed_ListPaperDocsResponse : TypeErrorsOnly ListPaperDocsResponse.
Proof. apply struct_is_typed. repeat constructor; apply field_is_typed. Qed.

#[export] Instance typed_FoldersContainingPaperDoc : TypeErrorsOnly FoldersContainingPaperDoc.
Proof.
  apply struct_is_typed. repeat constructor.
  - apply (field_is_typed (H := string_store_typed _)).
  - apply field_is_typed.
Qed.






(** C4 at a failing input: for a 200 body with [doc_ids], [cursor] and
    ["has_more": true], [ListDocs] succeeds and returns the identifiers
    and the cursor of the body, but its [HasMore] is false. *)
Theorem list_docs_drops_has_more (c : APIClient) (ctx : Context)
    (in_ : option ListPaperDocsArgs) :
  result
    (answer (response 200 None
       (lit "{'doc_ids':['a','b'],'cursor':{'value':'v','expiration':'e'},'has_more':true}")))
    (ListDocs c ctx in_)
  = (mkListPaperDocsResponse ["a"; "b"] (mkCursor "v" "e") false, None).
Proof.
  unfold ListDocs. rewrite (result_rpc _ _ _ _ _ _ _ (answer_answers _ _ _)).
  vm_compute. reflexivity.
Qed.

(** The tag of [HasMore] has no colon, so [reflect] finds no [json] key
    in it and the field goes by its Go name. *)
Lemma has_more_key :
  map fst (keyed ListPaperDocsResponse_fields) = ["doc_ids"; "cursor"; "HasMore"].
Proof. reflexivity. Qed.

(** ** Calls answered with another status than 200 *)



Lemma keyed_APIError :
  keyed APIError_fields
  = [ ("error_summary", field "Summary" (lit "json:'error_summary'")
                          Summary (fun x e => mkAPIError x (Metadata e)));
      ("error", field "Metadata" (lit "json:'error'")
                  Metadata (fun x e => mkAPIError (Summary e) x)) ].
Proof. reflexivity. Qed.

Lemma Decode_object {A} `{Decodable A} r ms rest (v : A) :
  next_value (io.data r) = Scanned (Object ms) rest ->
  Decode r v = store (Object ms) v.
Proof.
  intros Hs. unfold Decode. rewrite Hs.
  destruct rest; [destruct (io.failure r) |]; reflexivity.
Qed.






Lemma fold_error_summary : foldName "error_summary" = "ERROR_SUMMARY".
Proof. reflexivity. Qed.

Lemma fold_error : foldName "error" = "ERROR".
Proof. reflexivity. Qed.






(** ** Marshalling and decoding the arguments of a call *)

(** *** Strings that need no escape *)

Lemma append_cons c (a b : string) : String c a +:+ b = String c (a +:+ b).
Proof. reflexivity. Qed.

Lemma append_nil (b : string) : "" +:+ b = b.
Proof. reflexivity. Qed.

Lemma append_assoc (a b c : string) : (a +:+ b) +:+ c = a +:+ (b +:+ c).
Proof.
  induction a as [|x a IH]; rewrite ?append_cons, ?append_nil; [reflexivity | now rewrite IH].
Qed.

Lemma length_append (a b : string) :
  String.length (a +:+ b) = String.length a + String.length b.
Proof.
  induction a as [|x a IH]; rewrite ?append_cons, ?append_nil; simpl;
    [reflexivity | now rewrite IH].
Qed.

(** Texts are compared with their appends nested to the right. *)
Ltac flat := repeat (rewrite append_assoc || rewrite append_cons || rewrite append_nil).

Lemma plain_cons c s : plain (String c s) -> htmlSafe c = true /\ plain s.
Proof. unfold plain. simpl. intros H. apply andb_prop in H. exact H. Qed.

Lemma htmlSafe_byte c :
  htmlSafe c = true ->
  (byte c <? 128)%N = true /\ (byte c <? 32)%N = false
  /\ Ascii.eqb c dq = false /\ Ascii.eqb c "\" = false.
Proof.
  destruct c as [[] [] [] [] [] [] [] []]; intros H; vm_compute in H;
    try discriminate H; repeat split; reflexivity.
Qed.

Lemma appendString_plain s :
  plain s -> forall n, String.length s <= n -> appendString n s = s.
Proof.
  induction s as [|c s IH]; intros Hp n Hn; destruct n as [|n]; simpl in *;
    try reflexivity; try lia.
  destruct (plain_cons _ _ Hp) as [Hc Hs].
  destruct (htmlSafe_byte _ Hc) as (-> & _).
  unfold escape_byte. rewrite Hc. simpl. f_equal. apply IH; [assumption | lia].
Qed.

Lemma quote_plain s : plain s -> quote s = String dq (s +:+ DQ).
Proof. intros Hp. unfold quote, DQ. rewrite (appendString_plain s Hp) by lia. reflexivity. Qed.

Lemma string_token_plain s rest :
  plain s -> string_token (s +:+ String dq rest) = Scanned s rest.
Proof.
  induction s as [|c s IH]; intros Hp; flat; simpl.
  - reflexivity.
  - destruct (plain_cons _ _ Hp) as [Hc Hs].
    destruct (htmlSafe_byte _ Hc) as (_ & -> & -> & ->).
    rewrite (IH Hs). reflexivity.
Qed.

Lemma unquote_plain s :
  plain s -> forall n, String.length s <= n -> unquote n s = Some s.
Proof.
  induction s as [|c s IH]; intros Hp n Hn; destruct n as [|n]; simpl in *;
    try reflexivity; try lia.
  destruct (plain_cons _ _ Hp) as [Hc Hs].
  destruct (htmlSafe_byte _ Hc) as (-> & -> & -> & ->). simpl.
  rewrite (IH Hs) by lia. reflexivity.
Qed.

Lemma string_value_plain s rest :
  plain s -> string_value (s +:+ String dq rest) = Scanned s rest.
Proof.
  intros Hp. unfold string_value. rewrite (string_token_plain _ _ Hp). simpl.
  rewrite (unquote_plain _ Hp) by lia. reflexivity.
Qed.

(** *** Decimal integers *)

Lemma span_digits_uint u c r :
  strconv.is_digit c = false ->
  span_digits (NilEmpty.string_of_uint u +:+ String c r)
  = (NilEmpty.string_of_uint u, String c r).
Proof.
  intros Hc. induction u; simpl; flat; simpl; rewrite ?IHu; try reflexivity.
  rewrite Hc. reflexivity.
Qed.

Lemma all_digits_uint u : strconv.all_digits (NilEmpty.string_of_uint u) = true.
Proof. induction u; simpl; auto. Qed.

(** The decimal digits of a positive number start with a digit that is
    not zero. *)
Lemma to_uint_head p :
  Pos.to_uint p <> Decimal.Nil /\ forall u, Pos.to_uint p <> Decimal.D0 u.
Proof.
  split; [apply Unsigned.to_uint_nonnil |].
  intros u Hu.
  pose proof (Unsigned.to_of (Pos.to_uint p)) as Hn.
  rewrite Unsigned.of_to in Hn. simpl in Hn.
  pose proof (Unsigned.to_uint_nonzero p) as Hz.
  unfold Decimal.unorm in Hn.
  destruct (Decimal.nzhead (Pos.to_uint p)) eqn:Hh; try congruence.
  exact (nzhead_nonzero _ _ Hh).
Qed.

Lemma number_token_uint u c r :
  u <> Decimal.Nil -> (forall u', u <> Decimal.D0 u') -> delimiter c ->
  number_token (NilEmpty.string_of_uint u +:+ String c r)
  = Scanned (NilEmpty.string_of_uint u) (String c r)
  /\ number_token (String "-" (NilEmpty.string_of_uint u +:+ String c r))
     = Scanned (String "-" (NilEmpty.string_of_uint u)) (String c r).
Proof.
  intros Hn H0 Hc.
  assert (Hd : strconv.is_digit c = false) by (destruct Hc as [-> | ->]; reflexivity).
  destruct u; try (destruct Hn; reflexivity); try (destruct (H0 u); reflexivity);
    unfold number_token; simpl; flat; simpl; rewrite (span_digits_uint _ _ _ Hd);
    destruct Hc as [-> | ->]; split; reflexivity.
Qed.

Lemma string_of_uint_nonnil u :
  u <> Decimal.Nil -> NilZero.string_of_uint u = NilEmpty.string_of_uint u.
Proof. destruct u; [intros []; reflexivity | reflexivity ..]. Qed.

Lemma number_token_FormatInt z c r :
  delimiter c ->
  number_token (strconv.FormatInt z +:+ String c r)
  = Scanned (strconv.FormatInt z) (String c r).
Proof.
  intros Hc. unfold strconv.FormatInt.
  destruct z as [|p|p]; simpl.
  - destruct Hc as [-> | ->]; reflexivity.
  - destruct (to_uint_head p) as [Hn H0].
    rewrite (string_of_uint_nonnil _ Hn).
    apply (number_token_uint _ _ _ Hn H0 Hc).
  - destruct (to_uint_head p) as [Hn H0].
    rewrite (string_of_uint_nonnil _ Hn). flat.
    apply (number_token_uint _ _ _ Hn H0 Hc).
Qed.

Lemma ParseInt_uint u :
  u <> Decimal.Nil ->
  ((- 2 ^ 63 <=? Z.of_uint u) && (Z.of_uint u <? 2 ^ 63))%Z = true ->
  strconv.ParseInt (NilEmpty.string_of_uint u) = Some (Z.of_uint u).
Proof.
  intros Hn Hr. pose proof (all_digits_uint u) as Hd. pose proof (NilEmpty.usu u) as Hu.
  destruct u; [destruct Hn; reflexivity | ..];
    unfold strconv.ParseInt; simpl in *; rewrite Hd, Hu, Hr; reflexivity.
Qed.

Lemma ParseInt_neg_uint u :
  u <> Decimal.Nil ->
  ((- 2 ^ 63 <=? - Z.of_uint u) && (- Z.of_uint u <? 2 ^ 63))%Z = true ->
  strconv.ParseInt (String "-" (NilEmpty.string_of_uint u)) = Some (- Z.of_uint u)%Z.
Proof.
  intros Hn Hr. pose proof (all_digits_uint u) as Hd. pose proof (NilEmpty.usu u) as Hu.
  destruct u; [destruct Hn; reflexivity | ..];
    unfold strconv.ParseInt; simpl in *; rewrite Hd, Hu, Hr; reflexivity.
Qed.

Lemma of_uint_to_uint p : Z.of_uint (Pos.to_uint p) = Z.pos p.
Proof. unfold Z.of_uint. rewrite Unsigned.of_to. reflexivity. Qed.

Lemma ParseInt_FormatInt z :
  ((- 2 ^ 63 <=? z) && (z <? 2 ^ 63))%Z = true ->
  strconv.ParseInt (strconv.FormatInt z) = Some z.
Proof.
  intros Hr. unfold strconv.FormatInt. destruct z as [|p|p]; simpl.
  - reflexivity.
  - destruct (to_uint_head p) as [Hn _].
    rewrite (string_of_uint_nonnil _ Hn), <- (of_uint_to_uint p).
    apply ParseInt_uint; [assumption | now rewrite of_uint_to_uint].
  - destruct (to_uint_head p) as [Hn _].
    rewrite (string_of_uint_nonnil _ Hn).
    change (Z.neg p) with (- Z.pos p)%Z. rewrite <- (of_uint_to_uint p).
    apply ParseInt_neg_uint; [assumption | now rewrite of_uint_to_uint].
Qed.

Lemma int32_in_int64 z :
  in_range 32 z = true -> ((- 2 ^ 63 <=? z) && (z <? 2 ^ 63))%Z = true.
Proof.
  unfold in_range. change (2 ^ (32 - 1))%Z with 2147483648%Z.
  change (2 ^ 63)%Z with 9223372036854775808%Z.
  rewrite !andb_true_iff, !Z.leb_le, !Z.ltb_lt. lia.
Qed.

Lemma int_store_FormatInt z v :
  in_range 32 z = true ->
  int_store 32 "int32" (Number (strconv.FormatInt z)) v = (z, None).
Proof.
  intros Hr. unfold int_store.
  rewrite (ParseInt_FormatInt z (int32_in_int64 z Hr)), Hr. reflexivity.
Qed.

(** *** Scanning what the encoder prints *)

Lemma scan_value_number n d s :
  starts_number s = true -> scan_value (S n) d s = scan_map Number (number_token s).
Proof.
  destruct s as [|c s]; [discriminate |].
  destruct c as [[] [] [] [] [] [] [] []]; intros H; vm_compute in H;
    try discriminate H; reflexivity.
Qed.

Lemma FormatInt_starts_number z r : starts_number (strconv.FormatInt z +:+ r) = true.
Proof.
  unfold strconv.FormatInt. destruct z as [|p|p]; simpl; try reflexivity.
  destruct (to_uint_head p) as [Hn _].
  rewrite (string_of_uint_nonnil _ Hn).
  destruct (Pos.to_uint p); [destruct Hn; reflexivity | reflexivity ..].
Qed.

Lemma scan_int n d z c r :
  delimiter c ->
  scan_value (S n) d (print (Number (strconv.FormatInt z)) +:+ String c r)
  = Scanned (Number (strconv.FormatInt z)) (String c r).
Proof.
  intros Hc. simpl print.
  rewrite (scan_value_number _ _ _ (FormatInt_starts_number z _)).
  rewrite (number_token_FormatInt _ _ _ Hc). reflexivity.
Qed.

Lemma scan_plain_string n d s c r :
  plain s ->
  scan_value (S n) d (print (Str s) +:+ String c r) = Scanned (Str s) (String c r).
Proof.
  intros Hp. simpl print. rewrite (quote_plain _ Hp). unfold DQ. flat.
  change (scan_value (S n) d (String dq ?x)) with (scan_map Str (string_value x)).
  rewrite (string_value_plain _ _ Hp). reflexivity.
Qed.

Lemma print_object m : print (Object m) = String "{" (join member_text m +:+ "}").
Proof. reflexivity. Qed.

Lemma members_step n val acc s :
  members (S n) val acc (String dq s)
  = scan_bind (string_value s) (fun k r1 =>
      match skip_space r1 with
      | "" => Short
      | String c1 t1 =>
        if Ascii.eqb c1 ":" then
          scan_bind (val t1) (fun v r2 =>
            match skip_space r2 with
            | "" => Short
            | String c2 t2 =>
              if Ascii.eqb c2 "," then members n val (acc ++ [(k, v)]) t2
              else if Ascii.eqb c2 "}" then Scanned (Object (acc ++ [(k, v)])) t2
              else Invalid
            end)
        else Invalid
      end).
Proof. reflexivity. Qed.

Lemma members_join val ms :
  Forall (member_ok val) ms -> ms <> [] ->
  forall n acc rest, length ms <= n ->
    members n val acc (join member_text ms +:+ String "}" rest)
    = Scanned (Object (acc ++ ms)) rest.
Proof.
  induction ms as [|[k v] t IH]; intros Hok Hne n acc rest Hn; [congruence |].
  destruct n as [|n]; [simpl in Hn; lia |].
  apply Forall_cons_1 in Hok as [[Hk Hv] Ht]. simpl in Hk, Hv.
  simpl join. unfold member_text at 1. simpl fst. simpl snd.
  rewrite (quote_plain _ Hk). unfold DQ. flat.
  rewrite members_step, (string_value_plain _ _ Hk). simpl.
  destruct t as [|kv' t'].
  - flat. rewrite (Hv _ _ (or_intror eq_refl)). reflexivity.
  - flat. rewrite (Hv _ _ (or_introl eq_refl)). simpl.
    rewrite (IH Ht) by (simpl in *; discriminate || lia).
    rewrite <- app_assoc. reflexivity.
Qed.

Lemma flat_member_ok n d kv : flat_member kv -> member_ok (scan_value (S n) d) kv.
Proof.
  intros [Hk Hv]. split; [exact Hk |]. intros c r Hc.
  destruct Hv as [(s & -> & Hs) | (z & ->)].
  - apply scan_plain_string, Hs.
  - apply scan_int, Hc.
Qed.

Lemma join_length ms : length ms <= String.length (join member_text ms).
Proof.
  induction ms as [|kv t IH]; simpl join; [simpl; lia |].
  unfold member_text at 1. rewrite !length_append.
  destruct t as [|kv' t']; [simpl; lia |].
  rewrite length_append. simpl in *. lia.
Qed.

Lemma join_head ms r :
  ms <> [] -> exists x, join member_text ms +:+ r = String dq x.
Proof.
  destruct ms as [|kv t]; [congruence |]. intros _.
  simpl join. unfold member_text at 1, quote, DQ. flat. eexists. reflexivity.
Qed.

Lemma scan_value_object n x :
  scan_value (S n) 0 (String "{" (String dq x))
  = members n (scan_value n 1) [] (String dq x).
Proof. reflexivity. Qed.

(** An object of flat members is read back from its text, to the end
    of the text. *)
Lemma next_value_flat_object ms :
  Forall flat_member ms ->
  next_value (print (Object ms)) = Scanned (Object ms) "".
Proof.
  intros Hms. destruct ms as [|kv t] eqn:E; [reflexivity |]. rewrite <- E in *.
  assert (Hne : ms <> []) by (rewrite E; discriminate).
  rewrite print_object. unfold next_value.
  assert (Hl : exists n, String.length (String "{" (join member_text ms +:+ "}"))
                         = S (S n) /\ length ms <= S n).
  { simpl String.length. rewrite length_append. pose proof (join_length ms).
    exists (String.length (join member_text ms)). simpl. split; lia. }
  destruct Hl as (n & -> & Hn).
  destruct (join_head ms "}" Hne) as [x Hx].
  rewrite Hx, scan_value_object, <- Hx.
  apply (members_join _ ms); [| assumption | lia].
  eapply Forall_impl; [exact Hms |]. intros kv' Hkv. apply flat_member_ok, Hkv.
Qed.

Lemma Decode_complete {A} `{Decodable A} text j (v : A) :
  next_value text = Scanned j "" ->
  Decode (io.complete text) v = store j v /\ Unmarshal text v = store j v.
Proof.
  intros Hs. unfold Decode, Unmarshal. simpl. rewrite Hs. split; reflexivity.
Qed.

(** *** The arguments of [ListDocs] *)

Lemma encode_args a : encode a = Object (args_members a).
Proof.
  destruct a as [f s o z].
  destruct f, s, o, z; vm_compute; reflexivity.
Qed.

Lemma args_members_flat a :
  plain (FilterBy a) -> plain (SortBy a) -> plain (SortOrder a) ->
  Forall flat_member (args_members a).
Proof.
  intros Hf Hs Ho. unfold args_members, optional.
  repeat match goal with
         | |- context [if ?b then _ else _] => destruct b
         end;
    cbn [app];
    repeat (apply List.Forall_cons;
            [split; [reflexivity | simpl; first [solve [left; eauto] | solve [right; eauto]]] |]);
    apply List.Forall_nil.
Qed.

Lemma find_arg_fields :
  let fs := map base ListPaperDocsArgs_fields in
  find_field fs "filter_by" = Some (arg_field 0)
  /\ find_field fs "sort_by" = Some (arg_field 1)
  /\ find_field fs "sort_order" = Some (arg_field 2)
  /\ find_field fs "limit" = Some (arg_field 3).
Proof. repeat split; vm_compute; reflexivity. Qed.

Lemma store_members_found {S} (fs : list (Field S)) k j ms (s s1 : S) f :
  find_field fs k = Some f -> fstore f j s = (s1, None) ->
  store_members fs ((k, j) :: ms) s = store_members fs ms s1.
Proof.
  intros Hf Hs. simpl. rewrite Hf, Hs. destruct (store_members fs ms s1). reflexivity.
Qed.

Lemma store_optional {S} (fs : list (Field S)) (empty : bool) k j ms (s s1 : S) f :
  find_field fs k = Some f -> fstore f j s = (s1, None) ->
  (empty = true -> s1 = s) ->
  store_members fs (optional empty (k, j) ++ ms) s = store_members fs ms s1.
Proof.
  intros Hf Hs He. destruct empty; simpl.
  - rewrite (He eq_refl). reflexivity.
  - apply (store_members_found _ _ _ _ _ _ _ Hf Hs).
Qed.

Lemma fstore_arg_strings x (a : ListPaperDocsArgs) :
  fstore (arg_field 0) (Str x) a
    = (mkListPaperDocsArgs x (SortBy a) (SortOrder a) (Limit a), None)
  /\ fstore (arg_field 1) (Str x) a
    = (mkListPaperDocsArgs (FilterBy a) x (SortOrder a) (Limit a), None)
  /\ fstore (arg_field 2) (Str x) a
    = (mkListPaperDocsArgs (FilterBy a) (SortBy a) x (Limit a), None).
Proof. repeat split. Qed.

Lemma fstore_arg_limit z (a : ListPaperDocsArgs) :
  in_range 32 z = true ->
  fstore (arg_field 3) (Number (strconv.FormatInt z)) a
    = (mkListPaperDocsArgs (FilterBy a) (SortBy a) (SortOrder a) z, None).
Proof.
  intros Hz.
  change (fstore (arg_field 3) ?j ?a)
    with (let '(t, e) := int_store 32 "int32" j (Limit a) in
          (mkListPaperDocsArgs (FilterBy a) (SortBy a) (SortOrder a) t, e)).
  rewrite (int_store_FormatInt _ _ Hz). reflexivity.
Qed.

(** Storing the members written for [a] into the zero value gives [a]
    back: an omitted field was empty, and stays so. *)
Lemma store_args a :
  in_range 32 (Limit a) = true ->
  store (Object (args_members a)) (zero : ListPaperDocsArgs) = (a, None).
Proof.
  destruct a as [f s o z]. simpl Limit. intros Hz.
  destruct find_arg_fields as (H0 & H1 & H2 & H3).
  change (store_members (map base ListPaperDocsArgs_fields)
            (args_members (mkListPaperDocsArgs f s o z))
            (mkListPaperDocsArgs "" "" "" 0%Z)
          = (mkListPaperDocsArgs f s o z, None)).
  unfold args_members. simpl FilterBy. simpl SortBy. simpl SortOrder. simpl Limit.
  rewrite (store_optional _ _ _ _ _ _ _ _ H0 (proj1 (fstore_arg_strings f _)))
    by (simpl; intros ->%String.eqb_eq; reflexivity).
  rewrite (store_optional _ _ _ _ _ _ _ _ H1 (proj1 (proj2 (fstore_arg_strings s _))))
    by (simpl; intros ->%String.eqb_eq; reflexivity).
  rewrite (store_optional _ _ _ _ _ _ _ _ H2 (proj2 (proj2 (fstore_arg_strings o _))))
    by (simpl; intros ->%String.eqb_eq; reflexivity).
  rewrite <- (app_nil_r (optional _ _)).
  rewrite (store_optional _ _ _ _ _ _ _ _ H3 (fstore_arg_limit z _ Hz))
    by (simpl; intros ->%Z.eqb_eq; reflexivity).
  reflexivity.
Qed.

(** Arguments whose strings need no escape are decoded from their
    marshalled text as they were. *)
Lemma plain_args_round_trip a :
  plain (FilterBy a) -> plain (SortBy a) -> plain (SortOrder a) ->
  in_range 32 (Limit a) = true ->
  Decode (io.complete (print (encode a))) (zero : ListPaperDocsArgs) = (a, None)
  /\ Unmarshal (print (encode a)) (zero : ListPaperDocsArgs) = (a, None).
Proof.
  intros Hf Hs Ho Hz. rewrite encode_args.
  pose proof (next_value_flat_object _ (args_members_flat a Hf Hs Ho)) as Hn.
  destruct (Decode_complete _ _ (zero : ListPaperDocsArgs) Hn) as [-> ->].
  split; apply (store_args a Hz).
Qed.

Lemma In_plain s l : In s l -> Forall plain l -> plain s.
Proof. intros Hin Hl. rewrite List.Forall_forall in Hl. apply Hl, Hin. Qed.

(** C9: for valid arguments, [json.Marshal] succeeds, and decoding its
    text into a zero [ListPaperDocsArgs], with [Decoder.Decode] as for
    a body or with [json.Unmarshal], succeeds and gives the arguments
    back field for field; fields omitted because they are empty come
    back empty. *)
Theorem list_docs_args_round_trip (a : ListPaperDocsArgs) :
  valid_args a ->
  snd (Marshal (Some a)) = None
  /\ Decode (io.complete (fst (Marshal (Some a)))) (zero : ListPaperDocsArgs) = (a, None)
  /\ Unmarshal (fst (Marshal (Some a))) (zero : ListPaperDocsArgs) = (a, None).
Proof.
  intros (Hf & Hs & Ho & Hz). split; [reflexivity |].
  apply plain_args_round_trip; try assumption.
  - apply (In_plain _ _ Hf). repeat constructor.
  - apply (In_plain _ _ Hs). repeat constructor.
  - apply (In_plain _ _ Ho). repeat constructor.
Qed.

Lemma list_docs_args_round_trip_witness :
  let a := mkListPaperDocsArgs ListPaperDocsFilterByAccessed ""
             ListPaperDocsSortOrderDesc 100%Z in
  snd (Marshal (Some a)) = None
  /\ Decode (io.complete (fst (Marshal (Some a)))) (zero : ListPaperDocsArgs) = (a, None)
  /\ Unmarshal (fst (Marshal (Some a))) (zero : ListPaperDocsArgs) = (a, None).
Proof.
  apply (list_docs_args_round_trip
           (mkListPaperDocsArgs ListPaperDocsFilterByAccessed ""
              ListPaperDocsSortOrderDesc 100%Z)).
  repeat split; simpl; auto.
Defined.

(** * Further properties of the client *)

(** ** Requests, transport failures, and answers with another status than 200 *)

Lemma rpc_request_is c url body :
  request_is "POST" url
    [("Content-Type", "application/json"); ("Authorization", "Bearer " +:+ Token c)]
    body (rpc_request c url body).
Proof. repeat split. Qed.

Lemma content_request_is c url body :
  request_is "POST" url
    [("Dropbox-Api-Arg", body); ("Authorization", "Bearer " +:+ Token c)]
    body (content_request c url body).
Proof. repeat split. Qed.

(** X1: each operation calls [HTTP.Do] exactly once, whatever [Do]
    answers, and the request it hands to [Do] is a POST to its own
    endpoint, whose body is the marshalled argument and whose header
    has two fields and no other: [Authorization] with the bearer token,
    and [Content-Type: application/json] for the two metadata calls or
    [Dropbox-Api-Arg] with the marshalled argument for the download.
    (The requests that [http.Client] may send on its own inside [Do],
    after a redirect, are not counted: they are not built by the
    program.) *)
Theorem each_operation_posts_to_its_endpoint
    (c : APIClient) (ctx : Context) (tr : Transport) :
  (forall in_, sends tr (ListDocs c ctx in_)
     (request_is "POST" "https://api.dropboxapi.com/2/paper/docs/list"
        [("Content-Type", "application/json"); ("Authorization", "Bearer " +:+ Token c)]
        (fst (Marshal in_))))
  /\ (forall in_, sends tr (DownloadDoc c ctx in_)
     (request_is "POST" "https://api.dropboxapi.com/2/paper/docs/download"
        [("Dropbox-Api-Arg", fst (Marshal in_)); ("Authorization", "Bearer " +:+ Token c)]
        (fst (Marshal in_))))
  /\ (forall in_, sends tr (GetDocFolderInfo c ctx in_)
     (request_is "POST" "https://api.dropboxapi.com/2/paper/docs/get_folder_info"
        [("Content-Type", "application/json"); ("Authorization", "Bearer " +:+ Token c)]
        (fst (Marshal in_)))).
Proof.
  unfold sends, ListDocs, DownloadDoc, GetDocFolderInfo.
  repeat split; intros in_; eexists; split;
    try apply run_rpc; try apply run_content;
    first [apply rpc_request_is | apply content_request_is].
Qed.

Lemma refuse_refuses {A} e ctx (p : Prog A) : refuses (refuse e) ctx p e.
Proof. intros req _. reflexivity. Defined.

Lemma refused_rpc {I O} `{Encodable I, Decodable O}
    tr c ctx url (in_ : I) (out : O) e :
  refuses tr ctx (rpc c ctx url in_ out) e ->
  result tr (rpc c ctx url in_ out) = (out, Some e).
Proof.
  intros Hr. assert (Ht : tr ctx (rpc_request c url (print (encode in_))) = inr e).
  { apply Hr. rewrite run_rpc. now left. }
  unfold result, rpc, Marshal, rpc_request in *. simpl. rewrite Ht. reflexivity.
Qed.

Lemma refused_content {I O} `{Encodable I, Decodable O}
    tr c ctx url (in_ : I) (out : O) e :
  refuses tr ctx (content c ctx url in_ out) e ->
  result tr (content c ctx url in_ out) = (out, "", Some e).
Proof.
  intros Hr. assert (Ht : tr ctx (content_request c url (print (encode in_))) = inr e).
  { apply Hr. rewrite run_content. now left. }
  unfold result, content, Marshal, content_request in *. simpl. rewrite Ht. reflexivity.
Qed.

(** X2: when [Do] fails, each operation returns the error of [Do] as
    it is, with the zero destination and, for the download, no
    content; the error is not wrapped. *)
Theorem transport_error_is_returned_as_it_is
    (c : APIClient) (ctx : Context) (tr : Transport) (e : error) :
  (forall in_, refuses tr ctx (ListDocs c ctx in_) e ->
     result tr (ListDocs c ctx in_) = (zero, Some e))
  /\ (forall in_, refuses tr ctx (DownloadDoc c ctx in_) e ->
     result tr (DownloadDoc c ctx in_) = (zero, "", Some e))
  /\ (forall in_, refuses tr ctx (GetDocFolderInfo c ctx in_) e ->
     result tr (GetDocFolderInfo c ctx in_) = (zero, Some e)).
Proof.
  repeat split; intros in_ Hr.
  - apply (refused_rpc _ _ _ _ _ _ _ Hr).
  - apply (refused_content _ _ _ _ _ _ _ Hr).
  - apply (refused_rpc _ _ _ _ _ _ _ Hr).
Qed.

Lemma transport_error_is_returned_as_it_is_witness :
  result (refuse (DoError "connection refused"))
    (DownloadDoc (NewClient "tok") Background
       (Some (mkPaperDocExport "d1" ExportFormatMarkdown)))
  = (zero, "", Some (DoError "connection refused")).
Proof.
  destruct (transport_error_is_returned_as_it_is (NewClient "tok") Background
              (refuse (DoError "connection refused")) (DoError "connection refused"))
    as (_ & Hd & _).
  apply Hd, refuse_refuses.
Defined.

Lemma rpc_non_200 {I O} `{Encodable I, Decodable O}
    tr c ctx url (in_ : I) (out : O) resp :
  answers tr ctx (rpc c ctx url in_ out) resp ->
  http.StatusCode resp <> 200%Z ->
  result tr (rpc c ctx url in_ out)
  = (out, Some match Decode (http.RespBody resp) (zero : APIError) with
               | (_, Some e) => JSONError e
               | (apierr, None) => APIErr apierr
               end).
Proof.
  intros Ha Hs. rewrite (result_rpc _ _ _ _ _ _ _ Ha).
  apply Z.eqb_neq in Hs. unfold http.StatusOK. rewrite Hs. simpl.
  destruct (Decode _ _) as [a [x|]]; reflexivity.
Qed.

Lemma content_non_200 {I O} `{Encodable I, Decodable O}
    tr c ctx url (in_ : I) (out : O) resp :
  answers tr ctx (content c ctx url in_ out) resp ->
  http.StatusCode resp <> 200%Z ->
  result tr (content c ctx url in_ out)
  = (out, "", Some match Decode (http.RespBody resp) (zero : APIError) with
                   | (_, Some e) => JSONError e
                   | (apierr, None) => APIErr apierr
                   end).
Proof.
  intros Ha Hs. rewrite (result_content _ _ _ _ _ _ _ Ha).
  apply Z.eqb_neq in Hs. unfold http.StatusOK. rewrite Hs. simpl.
  destruct (Decode _ _) as [a [x|]]; reflexivity.
Qed.

(** X3: an answer with another status than 200 never makes a call
    succeed, whatever its header and body: each operation returns an
    error, the zero destination and, for the download, no content. *)
Theorem non_200_answer_never_succeeds
    (c : APIClient) (ctx : Context) (tr : Transport) (resp : http.Response) :
  http.StatusCode resp <> 200%Z ->
  (forall in_, answers tr ctx (ListDocs c ctx in_) resp ->
     exists e, result tr (ListDocs c ctx in_) = (zero, Some e))
  /\ (forall in_, answers tr ctx (DownloadDoc c ctx in_) resp ->
     exists e, result tr (DownloadDoc c ctx in_) = (zero, "", Some e))
  /\ (forall in_, answers tr ctx (GetDocFolderInfo c ctx in_) resp ->
     exists e, result tr (GetDocFolderInfo c ctx in_) = (zero, Some e)).
Proof.
  intros Hs. repeat split; intros in_ Ha; eexists.
  - apply (rpc_non_200 _ _ _ _ _ _ _ Ha Hs).
  - apply (content_non_200 _ _ _ _ _ _ _ Ha Hs).
  - apply (rpc_non_200 _ _ _ _ _ _ _ Ha Hs).
Qed.

Lemma non_200_answer_never_succeeds_witness :
  exists e,
    result (answer (response 204 (Some ("Dropbox-Api-Result", lit "{'revision':7}")) "data"))
      (DownloadDoc (NewClient "tok") Background None)
    = (zero, "", Some e).
Proof.
  destruct (non_200_answer_never_succeeds (NewClient "tok") Background
              (answer (response 204 (Some ("Dropbox-Api-Result", lit "{'revision':7}")) "data"))
              (response 204 (Some ("Dropbox-Api-Result", lit "{'revision':7}")) "data"))
    as (_ & Hd & _).
  - discriminate.
  - apply Hd, answer_answers.
Defined.

Lemma rpc_api_error_iff {I O} `{Encodable I, Decodable O}
    tr c ctx url (in_ : I) (out : O) resp e :
  answers tr ctx (rpc c ctx url in_ out) resp ->
  snd (result tr (rpc c ctx url in_ out)) = Some (APIErr e)
  <-> http.StatusCode resp <> 200%Z
      /\ Decode (http.RespBody resp) (zero : APIError) = (e, None).
Proof.
  intros Ha. destruct (Z.eq_dec (http.StatusCode resp) 200%Z) as [Hs | Hs].
  - rewrite (result_rpc _ _ _ _ _ _ _ Ha), Hs. simpl.
    destruct (Decode (http.RespBody resp) out) as [o [x|]]; simpl;
      split; try discriminate; intros [Hn _]; now destruct Hn.
  - rewrite (rpc_non_200 _ _ _ _ _ _ _ Ha Hs). simpl.
    destruct (Decode _ _) as [a [x|]]; split;
      try discriminate; try (intros [_ [=]]; fail).
    + intros [= ->]. split; [assumption | reflexivity].
    + intros [_ [= ->]]. reflexivity.
Qed.

Lemma content_api_error_iff {I O} `{Encodable I, Decodable O}
    tr c ctx url (in_ : I) (out : O) resp e :
  answers tr ctx (content c ctx url in_ out) resp ->
  snd (result tr (content c ctx url in_ out)) = Some (APIErr e)
  <-> http.StatusCode resp <> 200%Z
      /\ Decode (http.RespBody resp) (zero : APIError) = (e, None).
Proof.
  intros Ha. destruct (Z.eq_dec (http.StatusCode resp) 200%Z) as [Hs | Hs].
  - rewrite (result_content _ _ _ _ _ _ _ Ha), Hs. simpl.
    destruct (if negb _ then _ else _) as [o [x|]]; simpl;
      [| destruct (io.failure (http.RespBody resp))];
      split; try discriminate; intros [Hn _]; now destruct Hn.
  - rewrite (content_non_200 _ _ _ _ _ _ _ Ha Hs). simpl.
    destruct (Decode _ _) as [a [x|]]; split;
      try discriminate; try (intros [_ [=]]; fail).
    + intros [= ->]. split; [assumption | reflexivity].
    + intros [_ [= ->]]. reflexivity.
Qed.

(** X4: an operation returns the [APIError] [e] exactly when the status
    of the answer is not 200 and the decoder reads [e] from the body
    without error; an answer with status 200 never gives an
    [APIError]. *)
Theorem api_error_only_from_the_body_of_a_non_200_answer
    (c : APIClient) (ctx : Context) (tr : Transport) (resp : http.Response)
    (e : APIError) :
  let from_body :=
    http.StatusCode resp <> 200%Z
    /\ Decode (http.RespBody resp) (zero : APIError) = (e, None) in
  (forall in_, answers tr ctx (ListDocs c ctx in_) resp ->
     snd (result tr (ListDocs c ctx in_)) = Some (APIErr e) <-> from_body)
  /\ (forall in_, answers tr ctx (DownloadDoc c ctx in_) resp ->
     snd (result tr (DownloadDoc c ctx in_)) = Some (APIErr e) <-> from_body)
  /\ (forall in_, answers tr ctx (GetDocFolderInfo c ctx in_) resp ->
     snd (result tr (GetDocFolderInfo c ctx in_)) = Some (APIErr e) <-> from_body).
Proof.
  intros from_body. split; [| split]; intros in_ Ha.
  - apply (rpc_api_error_iff _ _ _ _ _ _ _ _ Ha).
  - apply (content_api_error_iff _ _ _ _ _ _ _ _ Ha).
  - apply (rpc_api_error_iff _ _ _ _ _ _ _ _ Ha).
Qed.

Lemma api_error_only_from_the_body_of_a_non_200_answer_witness :
  snd (result (answer (response 200 None (lit "{'error_summary':'conflict'}")))
         (ListDocs (NewClient "tok") Background None))
  <> Some (APIErr (mkAPIError "conflict" ∅)).
Proof.
  destruct (api_error_only_from_the_body_of_a_non_200_answer (NewClient "tok") Background
              (answer (response 200 None (lit "{'error_summary':'conflict'}")))
              (response 200 None (lit "{'error_summary':'conflict'}"))
              (mkAPIError "conflict" ∅)) as (Hl & _).
  intros He. apply (Hl None (answer_answers _ _ _)) in He. destruct He as [Hs _].
  apply Hs. reflexivity.
Defined.

#[export] Instance typed_int64 : TypeErrorsOnly (D := decodable_int64) int64.
Proof. intros j v v' e. apply int_store_typed. Qed.

#[export] Instance typed_PaperDocExportResult : TypeErrorsOnly PaperDocExportResult.
Proof.
  apply struct_is_typed. repeat constructor; apply field_is_typed.
Qed.




(** ** What a metadata call reads from a body *)

Lemma store_strings ids (old : list string) :
  store_elems (map Str ids) old = (ids, None).
Proof.
  revert old. induction ids as [|x ids IH]; intros old; simpl; [reflexivity |].
  rewrite IH. reflexivity.
Qed.

Lemma store_folder f (x : Folder) : store (folder_json f) x = (f, None).
Proof. destruct f, x. reflexivity. Qed.

Lemma store_folders fl (old : list Folder) :
  store_elems (map folder_json fl) old = (fl, None).
Proof.
  revert old. induction fl as [|f fl IH]; intros old; [reflexivity |].
  cbn [map store_elems]. rewrite store_folder, IH. reflexivity.
Qed.

Lemma rpc_ok_object {I O} `{Encodable I, Decodable O}
    tr c ctx url (in_ : I) (out : O) resp ms :
  answers tr ctx (rpc c ctx url in_ out) resp ->
  http.StatusCode resp = 200%Z ->
  body_starts_with resp (Object ms) ->
  result tr (rpc c ctx url in_ out)
  = (fst (store (Object ms) out), JSONError <$> snd (store (Object ms) out)).
Proof.
  intros Ha Hs [rest Hb]. rewrite (result_rpc _ _ _ _ _ _ _ Ha), Hs. simpl.
  rewrite (Decode_object _ _ _ _ Hb). destruct (store _ _). reflexivity.
Qed.

Lemma keyed_ListPaperDocsResponse :
  map fst (keyed ListPaperDocsResponse_fields) = ["doc_ids"; "cursor"; "HasMore"]
  /\ map snd (keyed ListPaperDocsResponse_fields) = ListPaperDocsResponse_fields.
Proof. split; reflexivity. Qed.

Lemma store_members_skip {S} (fs : list (Field S)) k j ms (s : S) :
  find_field fs k = None ->
  store_members fs ((k, j) :: ms) s = store_members fs ms s.
Proof.
  intros Hf. simpl. rewrite Hf. destruct (store_members fs ms s). reflexivity.
Qed.

Lemma find_response_fields :
  find_field ListPaperDocsResponse_fields "doc_ids" = Some (response_field 0)
  /\ find_field ListPaperDocsResponse_fields "cursor" = Some (response_field 1)
  /\ find_field ListPaperDocsResponse_fields "has_more" = None
  /\ find_field ListPaperDocsResponse_fields "HasMore" = Some (response_field 2).
Proof. repeat split; vm_compute; reflexivity. Qed.

Lemma fstore_doc_ids ids (r : ListPaperDocsResponse) :
  fstore (response_field 0) (Array (map Str ids)) r
  = (mkListPaperDocsResponse ids (ListPaperDocsResponse_Cursor r) (HasMore r), None).
Proof.
  transitivity (let '(l, e) := store_elems (map Str ids) (DocIDs r) in
                (mkListPaperDocsResponse l (ListPaperDocsResponse_Cursor r) (HasMore r), e)).
  - reflexivity.
  - rewrite store_strings. reflexivity.
Qed.

Lemma store_cursor cur (x : Cursor) : store (cursor_json cur) x = (cur, None).
Proof. destruct cur, x. reflexivity. Qed.

Lemma fstore_cursor cur (r : ListPaperDocsResponse) :
  fstore (response_field 1) (cursor_json cur) r
  = (mkListPaperDocsResponse (DocIDs r) cur (HasMore r), None).
Proof.
  transitivity (let '(x, e) := store (cursor_json cur) (ListPaperDocsResponse_Cursor r) in
                (mkListPaperDocsResponse (DocIDs r) x (HasMore r), e)).
  - reflexivity.
  - rewrite store_cursor. reflexivity.
Qed.

Lemma store_list_docs_json ids cur more :
  store (list_docs_json ids cur more) (zero : ListPaperDocsResponse)
  = (mkListPaperDocsResponse ids cur false, None).
Proof.
  destruct find_response_fields as (H0 & H1 & H2 & _).
  change (store_members ListPaperDocsResponse_fields
            [("doc_ids", Array (map Str ids)); ("cursor", cursor_json cur);
             ("has_more", Bool more)] (mkListPaperDocsResponse [] (mkCursor "" "") false)
          = (mkListPaperDocsResponse ids cur false, None)).
  rewrite (store_members_found _ _ _ _ _ _ _ H0 (fstore_doc_ids ids _)).
  rewrite (store_members_found _ _ _ _ _ _ _ H1 (fstore_cursor cur _)).
  rewrite (store_members_skip _ _ _ _ _ H2). reflexivity.
Qed.

(** X6: for any identifiers, cursor and flag, [ListDocs] answered with
    status 200 and the document of the remote API (keys [doc_ids],
    [cursor], [has_more]) succeeds with these identifiers and this
    cursor, and with [HasMore] false whatever the flag of the
    document. *)
Theorem list_docs_returns_ids_and_cursor_but_not_has_more
    (c : APIClient) (ctx : Context) (in_ : option ListPaperDocsArgs)
    (tr : Transport) (resp : http.Response)
    (ids : list string) (cur : Cursor) (more : bool) :
  answers tr ctx (ListDocs c ctx in_) resp ->
  http.StatusCode resp = 200%Z ->
  body_starts_with resp (list_docs_json ids cur more) ->
  result tr (ListDocs c ctx in_) = (mkListPaperDocsResponse ids cur false, None).
Proof.
  intros Ha Hs Hb. unfold ListDocs in *.
  rewrite (rpc_ok_object _ _ _ _ _ _ _ _ Ha Hs Hb).
  fold (list_docs_json ids cur more). rewrite store_list_docs_json. reflexivity.
Qed.

Lemma list_docs_returns_ids_and_cursor_but_not_has_more_witness :
  result
    (answer (response 200 None
       (lit "{'doc_ids':['a','b'],'cursor':{'value':'v','expiration':'e'},'has_more':true} ")))
    (ListDocs (NewClient "tok") Background None)
  = (mkListPaperDocsResponse ["a"; "b"] (mkCursor "v" "e") false, None).
Proof.
  apply (list_docs_returns_ids_and_cursor_but_not_has_more
           (NewClient "tok") Background None
           (answer (response 200 None
              (lit "{'doc_ids':['a','b'],'cursor':{'value':'v','expiration':'e'},'has_more':true} ")))
           (response 200 None
              (lit "{'doc_ids':['a','b'],'cursor':{'value':'v','expiration':'e'},'has_more':true} "))
           ["a"; "b"] (mkCursor "v" "e") true).
  - apply answer_answers.
  - reflexivity.
  - exists " ". vm_compute. reflexivity.
Defined.

Lemma keyed_response :
  keyed ListPaperDocsResponse_fields
  = [("doc_ids", response_field 0); ("cursor", response_field 1);
     ("HasMore", response_field 2)].
Proof. reflexivity. Qed.

Lemma response_field_keeps_has_more k j (r : ListPaperDocsResponse) f :
  find_field ListPaperDocsResponse_fields k = Some f ->
  foldName k <> "HASMORE" ->
  HasMore (fst (fstore f j r)) = HasMore r.
Proof.
  intros Hf Hk.
  assert (H0 : HasMore (fst (fstore (response_field 0) j r)) = HasMore r).
  { change (fstore (response_field 0) j r)
      with (let '(l, e) := store j (DocIDs r) in
            (mkListPaperDocsResponse l (ListPaperDocsResponse_Cursor r) (HasMore r), e)).
    destruct (store j (DocIDs r)). reflexivity. }
  assert (H1 : HasMore (fst (fstore (response_field 1) j r)) = HasMore r).
  { change (fstore (response_field 1) j r)
      with (let '(x, e) := store j (ListPaperDocsResponse_Cursor r) in
            (mkListPaperDocsResponse (DocIDs r) x (HasMore r), e)).
    destruct (store j (ListPaperDocsResponse_Cursor r)). reflexivity. }
  unfold find_field in Hf. rewrite keyed_response in Hf. cbn [find fst snd] in Hf.
  destruct (String.eqb_spec "doc_ids" k); [injection Hf as <-; exact H0 |].
  destruct (String.eqb_spec "cursor" k); [injection Hf as <-; exact H1 |].
  destruct (String.eqb_spec "HasMore" k) as [<- | _]; [destruct Hk; reflexivity |].
  change (foldName "doc_ids") with "DOC_IDS" in Hf.
  change (foldName "cursor") with "CURSOR" in Hf.
  change (foldName "HasMore") with "HASMORE" in Hf.
  destruct (String.eqb_spec "DOC_IDS" (foldName k)); [injection Hf as <-; exact H0 |].
  destruct (String.eqb_spec "CURSOR" (foldName k)); [injection Hf as <-; exact H1 |].
  destruct (String.eqb_spec "HASMORE" (foldName k)) as [E | _]; [destruct Hk; auto |].
  discriminate Hf.
Qed.

Lemma store_members_keeps_has_more ms : forall (r : ListPaperDocsResponse),
  (forall k v, In (k, v) ms -> foldName k <> "HASMORE") ->
  HasMore (fst (store_members ListPaperDocsResponse_fields ms r)) = HasMore r.
Proof.
  induction ms as [|[k j] ms IH]; intros r Hk; [reflexivity |].
  cbn [store_members].
  assert (Hms : forall k' v, In (k', v) ms -> foldName k' <> "HASMORE").
  { intros k' v Hin. apply (Hk k' v). now right. }
  destruct (find_field ListPaperDocsResponse_fields k) as [f|] eqn:Hf.
  - pose proof (response_field_keeps_has_more k j r f Hf (Hk k j (or_introl eq_refl))) as H1.
    destruct (fstore f j r) as [r1 e]. simpl in H1.
    specialize (IH r1 Hms). destruct (store_members _ ms r1) as [r2 e']. simpl in *.
    congruence.
  - specialize (IH r Hms). destruct (store_members _ ms r) as [r2 e']. exact IH.
Qed.

(** X7: [ListDocs] answered with status 200 and a JSON object returns
    [HasMore] false unless a key of the object equals the Go name
    [HasMore] when letter case is ignored; this holds for failing calls
    too. *)
Theorem has_more_is_set_by_no_other_key_than_HasMore
    (c : APIClient) (ctx : Context) (in_ : option ListPaperDocsArgs)
    (tr : Transport) (resp : http.Response) (ms : list (string * value)) :
  answers tr ctx (ListDocs c ctx in_) resp ->
  http.StatusCode resp = 200%Z ->
  body_starts_with resp (Object ms) ->
  (forall k v, In (k, v) ms -> foldName k <> "HASMORE") ->
  HasMore (fst (result tr (ListDocs c ctx in_))) = false.
Proof.
  intros Ha Hs Hb Hk. unfold ListDocs in *.
  rewrite (rpc_ok_object _ _ _ _ _ _ _ _ Ha Hs Hb). cbn [fst].
  exact (store_members_keeps_has_more ms zero Hk).
Qed.

Lemma has_more_is_set_by_no_other_key_than_HasMore_witness :
  HasMore (fst (result
    (answer (response 200 None (lit "{'has_more':true,'hasMore_':true,'doc_ids':5}")))
    (ListDocs (NewClient "tok") Background None))) = false.
Proof.
  apply (has_more_is_set_by_no_other_key_than_HasMore
           (NewClient "tok") Background None
           (answer (response 200 None (lit "{'has_more':true,'hasMore_':true,'doc_ids':5}")))
           (response 200 None (lit "{'has_more':true,'hasMore_':true,'doc_ids':5}"))
           [("has_more", Bool true); ("hasMore_", Bool true); ("doc_ids", Number "5")]).
  - apply answer_answers.
  - reflexivity.
  - exists "". vm_compute. reflexivity.
  - intros k v [[= <- _] | [[= <- _] | [[= <- _] | []]]]; vm_compute; discriminate.
Defined.

Lemma keyed_folders :
  keyed FoldersContainingPaperDoc_fields
  = [("FolderSharingPolicyType", folders_field 0); ("Folders", folders_field 1)].
Proof. reflexivity. Qed.

Lemma find_folders_fields k :
  (foldName k = "FOLDERSHARINGPOLICYTYPE" ->
   find_field FoldersContainingPaperDoc_fields k = Some (folders_field 0))
  /\ (foldName k = "FOLDERS" ->
      find_field FoldersContainingPaperDoc_fields k = Some (folders_field 1)).
Proof.
  unfold find_field. rewrite keyed_folders. cbn [find fst snd].
  change (foldName "FolderSharingPolicyType") with "FOLDERSHARINGPOLICYTYPE".
  change (foldName "Folders") with "FOLDERS".
  split; intros Hk; rewrite Hk.
  - destruct (String.eqb_spec "FolderSharingPolicyType" k); [reflexivity |].
    destruct (String.eqb_spec "Folders" k) as [<- | _]; [discriminate Hk | reflexivity].
  - destruct (String.eqb_spec "FolderSharingPolicyType" k) as [<- | _]; [discriminate Hk |].
    destruct (String.eqb_spec "Folders" k); reflexivity.
Qed.

Lemma fstore_policy p (r : FoldersContainingPaperDoc) :
  fstore (folders_field 0) (Str p) r = (mkFoldersContainingPaperDoc p (Folders r), None).
Proof. reflexivity. Qed.

Lemma fstore_folders fl (r : FoldersContainingPaperDoc) :
  fstore (folders_field 1) (Array (map folder_json fl)) r
  = (mkFoldersContainingPaperDoc (FolderSharingPolicyType r) fl, None).
Proof.
  transitivity (let '(l, e) := store_elems (map folder_json fl) (Folders r) in
                (mkFoldersContainingPaperDoc (FolderSharingPolicyType r) l, e)).
  - reflexivity.
  - rewrite store_folders. reflexivity.
Qed.

(** X8: [FoldersContainingPaperDoc] has no tags, so [GetDocFolderInfo]
    reads the policy and the folders from the keys that equal the Go
    names [FolderSharingPolicyType] and [Folders] when letter case is
    ignored; the folders come back in the order of the document. *)
Theorem folder_info_is_decoded_from_the_go_field_names
    (c : APIClient) (ctx : Context) (in_ : option RefPaperDoc)
    (tr : Transport) (resp : http.Response)
    (k1 k2 p : string) (fl : list Folder) :
  answers tr ctx (GetDocFolderInfo c ctx in_) resp ->
  http.StatusCode resp = 200%Z ->
  foldName k1 = "FOLDERSHARINGPOLICYTYPE" ->
  foldName k2 = "FOLDERS" ->
  body_starts_with resp (Object [(k1, Str p); (k2, Array (map folder_json fl))]) ->
  result tr (GetDocFolderInfo c ctx in_) = (mkFoldersContainingPaperDoc p fl, None).
Proof.
  intros Ha Hs H1 H2 Hb. unfold GetDocFolderInfo in *.
  rewrite (rpc_ok_object _ _ _ _ _ _ _ _ Ha Hs Hb).
  change (store (Object [(k1, Str p); (k2, Array (map folder_json fl))])
            (zero : FoldersContainingPaperDoc))
    with (store_members FoldersContainingPaperDoc_fields
            [(k1, Str p); (k2, Array (map folder_json fl))]
            (mkFoldersContainingPaperDoc "" [])).
  rewrite (store_members_found _ _ _ _ _ _ _
             (proj1 (find_folders_fields k1) H1) (fstore_policy p _)).
  rewrite (store_members_found _ _ _ _ _ _ _
             (proj2 (find_folders_fields k2) H2) (fstore_folders fl _)).
  reflexivity.
Qed.

Lemma folder_info_is_decoded_from_the_go_field_names_witness :
  result
    (answer (response 200 None
       (lit "{'foldersharingpolicytype':'team','FOLDERS':[{'id':'1','name':'Eng'}]}")))
    (GetDocFolderInfo (NewClient "tok") Background (Some (mkRefPaperDoc "d1")))
  = (mkFoldersContainingPaperDoc FolderSharingPolicyTeam [mkFolder "1" "Eng"], None).
Proof.
  apply (folder_info_is_decoded_from_the_go_field_names
           (NewClient "tok") Background (Some (mkRefPaperDoc "d1"))
           (answer (response 200 None
              (lit "{'foldersharingpolicytype':'team','FOLDERS':[{'id':'1','name':'Eng'}]}")))
           (response 200 None
              (lit "{'foldersharingpolicytype':'team','FOLDERS':[{'id':'1','name':'Eng'}]}"))
           "foldersharingpolicytype" "FOLDERS" "team" [mkFolder "1" "Eng"]).
  - apply answer_answers.
  - reflexivity.
  - reflexivity.
  - reflexivity.
  - exists "". vm_compute. reflexivity.
Defined.




(** ** The text of the requests *)

Lemma print_string_member k v :
  plain k -> plain v -> member_text (k, Str v) = string_member k v.
Proof.
  intros Hk Hv. unfold member_text, string_member. simpl fst. simpl snd. simpl print.
  rewrite (quote_plain _ Hk), (quote_plain _ Hv). unfold DQ. flat. reflexivity.
Qed.

Lemma encode_export d f :
  encode (mkPaperDocExport d f)
  = Object (optional (String.eqb d "") ("doc_id", Str d)
              ++ optional (String.eqb f "") ("export_format", Str f)).
Proof. destruct d, f; reflexivity. Qed.

Lemma print_export d f :
  plain d -> plain f -> print (encode (mkPaperDocExport d f)) = export_text d f.
Proof.
  intros Hd Hf. rewrite encode_export, print_object. unfold export_text, optional.
  destruct (String.eqb d ""), (String.eqb f ""); cbn [app join orb];
    rewrite ?print_string_member by (assumption || reflexivity);
    flat; reflexivity.
Qed.

(** X10: the argument of a download is sent in the header
    [Dropbox-API-Arg] and as the body; for strings that need no escape
    it is the object of [doc_id] and [export_format] without the fields
    that are empty. *)
Theorem download_argument_omits_empty_fields
    (c : APIClient) (ctx : Context) (tr : Transport) (d f : string) :
  plain d -> plain f ->
  sends tr (DownloadDoc c ctx (Some (mkPaperDocExport d f)))
    (fun req =>
       http.Get (http.Header req) "Dropbox-API-Arg" = export_text d f
       /\ http.Body req = export_text d f).
Proof.
  intros Hd Hf. unfold sends, DownloadDoc. eexists. split; [apply run_content |].
  cbn [encode encodable_ptr].
  change (encode (Some (mkPaperDocExport d f))) with (encode (mkPaperDocExport d f)).
  rewrite (print_export d f Hd Hf).
  destruct (content_request_headers c "https://api.dropboxapi.com/2/paper/docs/download"
              (export_text d f)) as [Ha _].
  unfold http.Get. rewrite canonical_api_arg, Ha. split; reflexivity.
Qed.

Lemma download_argument_omits_empty_fields_witness :
  sends (answer (response 200 None "data"))
    (DownloadDoc (NewClient "tok") Background (Some (mkPaperDocExport "d1" "")))
    (fun req =>
       http.Get (http.Header req) "Dropbox-API-Arg" = lit "{'doc_id':'d1'}"
       /\ http.Body req = lit "{'doc_id':'d1'}").
Proof.
  apply (download_argument_omits_empty_fields (NewClient "tok") Background
           (answer (response 200 None "data")) "d1" ""); reflexivity.
Defined.

Lemma print_ref d :
  plain d -> print (encode (mkRefPaperDoc d)) = "{" +:+ string_member "doc_id" d +:+ "}".
Proof.
  intros Hd.
  change (encode (mkRefPaperDoc d)) with (Object [("doc_id", Str d)]).
  rewrite print_object. cbn [join].
  rewrite print_string_member by (assumption || reflexivity). flat. reflexivity.
Qed.

(** X11: the body of a folder request always has the member [doc_id],
    also for the empty identifier: its tag has no [omitempty]. *)
Theorem folder_info_request_always_names_the_document
    (c : APIClient) (ctx : Context) (tr : Transport) (d : string) :
  plain d ->
  sends tr (GetDocFolderInfo c ctx (Some (mkRefPaperDoc d)))
    (fun req => http.Body req = "{" +:+ string_member "doc_id" d +:+ "}").
Proof.
  intros Hd. unfold sends, GetDocFolderInfo. eexists. split; [apply run_rpc |].
  change (encode (Some (mkRefPaperDoc d))) with (encode (mkRefPaperDoc d)).
  rewrite (print_ref d Hd). reflexivity.
Qed.

Lemma folder_info_request_always_names_the_document_witness :
  sends (answer (response 200 None "{}"))
    (GetDocFolderInfo (NewClient "tok") Background (Some (mkRefPaperDoc "")))
    (fun req => http.Body req = lit "{'doc_id':''}").
Proof.
  apply (folder_info_request_always_names_the_document (NewClient "tok") Background
           (answer (response 200 None "{}")) ""). reflexivity.
Defined.

(** X12: a nil argument is marshalled as [null]: each operation sends
    the body [null], and the download sends [null] in the header
    [Dropbox-API-Arg] as well. *)
Theorem nil_argument_is_sent_as_null (c : APIClient) (ctx : Context) (tr : Transport) :
  sends tr (ListDocs c ctx None) (fun req => http.Body req = "null")
  /\ sends tr (DownloadDoc c ctx None)
       (fun req => http.Body req = "null"
                   /\ http.Get (http.Header req) "Dropbox-API-Arg" = "null")
  /\ sends tr (GetDocFolderInfo c ctx None) (fun req => http.Body req = "null").
Proof.
  unfold sends, ListDocs, DownloadDoc, GetDocFolderInfo.
  repeat split; eexists; (split; [first [apply run_rpc | apply run_content] |]);
    try reflexivity.
  destruct (content_request_headers c "https://api.dropboxapi.com/2/paper/docs/download"
              "null") as [Ha _].
  unfold http.Get. rewrite canonical_api_arg.
  change (print (encode None)) with "null". rewrite Ha. split; reflexivity.
Qed.

(** *** Round trips of the other two requests *)

Lemma find_export_fields :
  let fs := map base PaperDocExport_fields in
  find_field fs "doc_id" = Some (export_field 0)
  /\ find_field fs "export_format" = Some (export_field 1).
Proof. split; vm_compute; reflexivity. Qed.

Lemma fstore_export_strings x (e : PaperDocExport) :
  fstore (export_field 0) (Str x) e = (mkPaperDocExport x (Format e), None)
  /\ fstore (export_field 1) (Str x) e = (mkPaperDocExport (DocID e) x, None).
Proof. split; reflexivity. Qed.

Lemma store_export d f :
  store (Object (optional (String.eqb d "") ("doc_id", Str d)
                   ++ optional (String.eqb f "") ("export_format", Str f)))
    (zero : PaperDocExport)
  = (mkPaperDocExport d f, None).
Proof.
  destruct find_export_fields as (H0 & H1).
  change (store_members (map base PaperDocExport_fields)
            (optional (String.eqb d "") ("doc_id", Str d)
               ++ optional (String.eqb f "") ("export_format", Str f))
            (mkPaperDocExport "" "")
          = (mkPaperDocExport d f, None)).
  rewrite (store_optional _ _ _ _ _ _ _ _ H0 (proj1 (fstore_export_strings d _)))
    by (simpl; intros ->%String.eqb_eq; reflexivity).
  rewrite <- (app_nil_r (optional _ _)).
  rewrite (store_optional _ _ _ _ _ _ _ _ H1 (proj2 (fstore_export_strings f _)))
    by (simpl; intros ->%String.eqb_eq; reflexivity).
  reflexivity.
Qed.

Lemma export_members_flat d f :
  plain d -> plain f ->
  Forall flat_member (optional (String.eqb d "") ("doc_id", Str d)
                        ++ optional (String.eqb f "") ("export_format", Str f)).
Proof.
  intros Hd Hf. unfold optional.
  destruct (String.eqb d ""), (String.eqb f ""); cbn [app];
    repeat (apply List.Forall_cons;
            [split; [reflexivity | left; eauto] |]);
    apply List.Forall_nil.
Qed.

(** X13: a [PaperDocExport] and a [RefPaperDoc] whose strings need no
    escape are decoded from their marshalled text as they were, by
    [json.Unmarshal] and by a [Decoder]; an omitted field comes back
    empty. *)
Theorem export_and_reference_round_trip (d f : string) :
  plain d -> plain f ->
  let e := mkPaperDocExport d f in
  let r := mkRefPaperDoc d in
  Unmarshal (fst (Marshal (Some e))) (zero : PaperDocExport) = (e, None)
  /\ Decode (io.complete (fst (Marshal (Some e)))) (zero : PaperDocExport) = (e, None)
  /\ Unmarshal (fst (Marshal (Some r))) (zero : RefPaperDoc) = (r, None)
  /\ Decode (io.complete (fst (Marshal (Some r)))) (zero : RefPaperDoc) = (r, None).
Proof.
  intros Hd Hf e r. subst e r.
  assert (He : Decode (io.complete (print (encode (mkPaperDocExport d f))))
                 (zero : PaperDocExport) = (mkPaperDocExport d f, None)
               /\ Unmarshal (print (encode (mkPaperDocExport d f)))
                    (zero : PaperDocExport) = (mkPaperDocExport d f, None)).
  { rewrite encode_export.
    pose proof (next_value_flat_object _ (export_members_flat d f Hd Hf)) as Hn.
    destruct (Decode_complete _ _ (zero : PaperDocExport) Hn) as [-> ->].
    split; apply store_export. }
  assert (Hr : Decode (io.complete (print (encode (mkRefPaperDoc d))))
                 (zero : RefPaperDoc) = (mkRefPaperDoc d, None)
               /\ Unmarshal (print (encode (mkRefPaperDoc d)))
                    (zero : RefPaperDoc) = (mkRefPaperDoc d, None)).
  { change (encode (mkRefPaperDoc d)) with (Object [("doc_id", Str d)]).
    assert (Hfl : Forall flat_member [("doc_id", Str d)]).
    { apply List.Forall_cons; [split; [reflexivity | left; eauto] | apply List.Forall_nil]. }
    pose proof (next_value_flat_object _ Hfl) as Hn.
    destruct (Decode_complete _ _ (zero : RefPaperDoc) Hn) as [-> ->].
    split; reflexivity. }
  destruct He as [He1 He2], Hr as [Hr1 Hr2].
  repeat split; assumption.
Qed.

Lemma export_and_reference_round_trip_witness :
  let e := mkPaperDocExport "d1" ExportFormatHTML in
  let r := mkRefPaperDoc "d1" in
  Unmarshal (fst (Marshal (Some e))) (zero : PaperDocExport) = (e, None)
  /\ Decode (io.complete (fst (Marshal (Some e)))) (zero : PaperDocExport) = (e, None)
  /\ Unmarshal (fst (Marshal (Some r))) (zero : RefPaperDoc) = (r, None)
  /\ Decode (io.complete (fst (Marshal (Some r)))) (zero : RefPaperDoc) = (r, None).
Proof.
  apply (export_and_reference_round_trip "d1" ExportFormatHTML); reflexivity.
Defined.

(** *** The header value of a download has no control byte *)

Lemma all_bytes_app p a b :
  all_bytes p (a +:+ b) = all_bytes p a && all_bytes p b.
Proof.
  induction a as [|c a IH]; [reflexivity |].
  rewrite append_cons. simpl. rewrite IH. apply andb_assoc.
Qed.

Lemma escape_byte_printable c : all_bytes printable (escape_byte c) = true.
Proof. destruct c as [[] [] [] [] [] [] [] []]; vm_compute; reflexivity. Qed.

Lemma rune_bytes_printable c0 t r size :
  (byte c0 <? 128)%N = false ->
  utf8.DecodeRuneInString (String c0 t) = (r, size) ->
  all_bytes printable (stake size (String c0 t)) = true.
Proof.
  intros Hc Hd. apply N.ltb_ge in Hc.
  unfold utf8.DecodeRuneInString in Hd. cbv zeta in Hd.
  repeat match type of Hd with
         | context [if ?b then _ else _] =>
           lazymatch b with
           | context [if _ then _ else _] => fail
           | _ => destruct b eqn:?
           end
         | context [match ?s with "" => _ | String _ _ => _ end] => destruct s
         end;
    injection Hd as <- <-; cbn [stake all_bytes]; unfold printable;
    repeat match goal with
           | H : (_ || _) = false |- _ => apply orb_false_elim in H as [? ?]
           end;
    repeat match goal with
           | H : (_ <? _)%N = false |- _ => apply N.ltb_ge in H
           end;
    repeat (rewrite (proj2 (N.leb_le 32 _)) by lia); reflexivity.
Qed.

Lemma appendString_printable n : forall s, all_bytes printable (appendString n s) = true.
Proof.
  induction n as [|n IH]; intros s; [reflexivity |].
  destruct s as [|c t]; [reflexivity |]. cbn [appendString].
  destruct (byte c <? 128)%N eqn:Hc.
  - rewrite all_bytes_app, escape_byte_printable, IH. reflexivity.
  - destruct (utf8.DecodeRuneInString (String c t)) as [r size] eqn:Hd.
    repeat match goal with
           | |- context [if ?b then _ else _] => destruct b
           end;
      rewrite all_bytes_app, IH, ?(rune_bytes_printable c t r size Hc Hd); reflexivity.
Qed.

Lemma quote_printable s : all_bytes printable (quote s) = true.
Proof.
  unfold quote. rewrite !all_bytes_app, appendString_printable. reflexivity.
Qed.

Lemma string_members_printable (ms : list (string * string)) :
  all_bytes printable (join member_text (strings ms)) = true.
Proof.
  induction ms as [|[k v] ms IH]; [reflexivity |].
  assert (Hm : all_bytes printable (member_text (k, Str v)) = true).
  { unfold member_text. cbn [fst snd print].
    rewrite !all_bytes_app, !quote_printable. reflexivity. }
  destruct ms as [|kv ms'].
  - change (all_bytes printable (member_text (k, Str v) +:+ "") = true).
    rewrite all_bytes_app, Hm. reflexivity.
  - change (all_bytes printable
              (member_text (k, Str v) +:+ "," +:+ join member_text (strings (kv :: ms')))
            = true).
    rewrite !all_bytes_app, Hm, IH. reflexivity.
Qed.

(** X14: whatever the bytes of the document identifier and of the
    format, the value of the header [Dropbox-API-Arg] has no byte below
    the space: [json.Marshal] escapes control characters, so the
    argument cannot break the header line. *)
Theorem download_argument_has_no_control_byte
    (c : APIClient) (ctx : Context) (tr : Transport) (in_ : option PaperDocExport) :
  sends tr (DownloadDoc c ctx in_)
    (fun req =>
       all_bytes printable (http.Get (http.Header req) "Dropbox-API-Arg") = true).
Proof.
  unfold sends, DownloadDoc. eexists. split; [apply run_content |].
  unfold http.Get. rewrite canonical_api_arg.
  destruct (content_request_headers c "https://api.dropboxapi.com/2/paper/docs/download"
              (print (encode in_))) as [-> _].
  destruct in_ as [[d f] |]; [| reflexivity].
  change (encode (Some (mkPaperDocExport d f))) with (encode (mkPaperDocExport d f)).
  rewrite encode_export, print_object. cbn [all_bytes].
  rewrite all_bytes_app. unfold optional.
  destruct (String.eqb d ""), (String.eqb f ""); cbn [app].
  - reflexivity.
  - change [("export_format", Str f)] with (strings [("export_format", f)]).
    rewrite string_members_printable. reflexivity.
  - change [("doc_id", Str d)] with (strings [("doc_id", d)]).
    rewrite string_members_printable. reflexivity.
  - change [("doc_id", Str d); ("export_format", Str f)]
      with (strings [("doc_id", d); ("export_format", f)]).
    rewrite string_members_printable. reflexivity.
Qed.

(** ** Headers and error bodies that the decoder rejects *)

(** X15: [json.Unmarshal] accepts one value only.  A download answered
    with status 200 whose header [Dropbox-API-Result] is a JSON value
    followed by anything but white space fails with a syntax error,
    zero metadata and no content (a body, read by a [Decoder], may be
    followed by anything). *)
Theorem download_header_followed_by_more_text_is_rejected
    (c : APIClient) (ctx : Context) (in_ : option PaperDocExport)
    (tr : Transport) (resp : http.Response) (j : value) (rest : string) :
  answers tr ctx (DownloadDoc c ctx in_) resp ->
  http.StatusCode resp = 200%Z ->
  next_value (http.Get (http.RespHeader resp) "Dropbox-API-Result") = Scanned j rest ->
  skip_space rest <> "" ->
  result tr (DownloadDoc c ctx in_) = (zero, "", Some (JSONError SyntaxError)).
Proof.
  intros Ha Hs Hn Hr. unfold DownloadDoc in *.
  rewrite (result_content _ _ _ _ _ _ _ Ha), Hs. simpl.
  destruct (String.eqb_spec (http.Get (http.RespHeader resp) "Dropbox-API-Result") "")
    as [E | _].
  - rewrite E in Hn. discriminate Hn.
  - simpl. unfold Unmarshal. rewrite Hn.
    apply String.eqb_neq in Hr. rewrite Hr. reflexivity.
Qed.

Lemma download_header_followed_by_more_text_is_rejected_witness :
  result
    (answer (response 200 (Some ("Dropbox-Api-Result", lit "{'revision':7} {'revision':8}"))
               "data"))
    (DownloadDoc (NewClient "tok") Background None)
  = (zero, "", Some (JSONError SyntaxError)).
Proof.
  apply (download_header_followed_by_more_text_is_rejected
           (NewClient "tok") Background None
           (answer (response 200
                      (Some ("Dropbox-Api-Result", lit "{'revision':7} {'revision':8}"))
                      "data"))
           (response 200 (Some ("Dropbox-Api-Result", lit "{'revision':7} {'revision':8}"))
              "data")
           (Object [("revision", Number "7")]) (lit " {'revision':8}")).
  - apply answer_answers.
  - reflexivity.
  - vm_compute. reflexivity.
  - vm_compute. discriminate.
Defined.

(** *** Error details that are not strings *)

Lemma store_members_error {S} (fs : list (Field S)) k j f ms :
  In (k, j) ms -> find_field fs k = Some f ->
  (forall s, snd (fstore f j s) <> None) ->
  forall s, snd (store_members fs ms s) <> None.
Proof.
  intros Hin Hf He. induction ms as [|[k' j'] ms IH]; intros s; [destruct Hin |].
  cbn [store_members].
  destruct Hin as [[= -> ->] | Hin].
  - rewrite Hf. pose proof (He s) as Hs. destruct (fstore f j s) as [s1 [e|]]; [| simpl in Hs; congruence].
    destruct (store_members fs ms s1). simpl. discriminate.
  - destruct (match find_field fs k' with Some f' => fstore f' j' s | None => (s, None) end)
      as [s1 e].
    pose proof (IH Hin s1) as Hs. destruct (store_members fs ms s1) as [s2 [e'|]];
      [| simpl in Hs; congruence].
    destruct e; simpl; discriminate.
Qed.

Lemma store_entries_error {A} `{Zero A, Decodable A} k v (m : list (string * value)) :
  In (k, v) m -> snd (store v (zero : A)) <> None ->
  forall acc : gmap string A, snd (store_entries m acc) <> None.
Proof.
  intros Hin Hv. induction m as [|[k' v'] m IH]; intros acc; [destruct Hin |].
  cbn [store_entries].
  destruct Hin as [[= -> ->] | Hin].
  - destruct (store v zero) as [x [e|]]; [| simpl in Hv; congruence].
    destruct (store_entries m _). simpl. discriminate.
  - destruct (store v' zero) as [x e].
    pose proof (IH Hin (<[k' := x]> acc)) as Hs.
    destruct (store_entries m _) as [m' [e'|]]; [| simpl in Hs; congruence].
    destruct e; simpl; discriminate.
Qed.

Lemma find_metadata_field k :
  foldName k = "ERROR" -> find_field APIError_fields k = Some metadata_field.
Proof.
  intros Hk. unfold find_field. rewrite keyed_APIError. cbn [find fst snd].
  rewrite fold_error_summary, fold_error, Hk.
  destruct (String.eqb_spec "error_summary" k) as [<- | _]; [discriminate Hk |].
  destruct (String.eqb_spec "error" k); reflexivity.
Qed.

#[export] Instance typed_APIError : TypeErrorsOnly APIError.
Proof. apply struct_is_typed. repeat constructor; apply field_is_typed. Qed.

Lemma Decode_nested_error r ms rest k m k' v :
  next_value (io.data r) = Scanned (Object ms) rest ->
  In (k, Object m) ms -> foldName k = "ERROR" ->
  In (k', v) m -> (forall s, v <> Str s) -> v <> Null ->
  exists a e, Decode r (zero : APIError) = (a, Some e) /\ is_type_error e.
Proof.
  intros Hs Hin Hk Hin' Hv Hn. rewrite (Decode_object _ _ _ _ Hs).
  destruct (store (Object ms) (zero : APIError)) as [a [e|]] eqn:E.
  - exists a, e. split; [reflexivity |]. apply (store_type_error _ _ _ _ E).
  - exfalso.
    apply (store_members_error APIError_fields k (Object m) metadata_field ms Hin
             (find_metadata_field k Hk)) with (s := zero).
    + intros s.
      change (fstore metadata_field (Object m) s)
        with (let '(t, e) := store_entries m (Metadata s) in (mkAPIError (Summary s) t, e)).
      pose proof (store_entries_error (A := string) k' v m Hin') as He.
      specialize (He ltac:(destruct v; simpl; congruence) (Metadata s)).
      destruct (store_entries m (Metadata s)) as [t e]. exact He.
    + change (store_members APIError_fields ms zero) with (store (Object ms) (zero : APIError)).
      rewrite E. reflexivity.
Qed.

(** X16: [Metadata] is a map of strings.  When the status is not 200
    and the body starts with a JSON object that the scanner accepts (so
    nested no deeper than [maxNestingDepth]) whose member [error] is an
    object with a member that is neither a string nor [null], each
    operation fails with a type error of the decoder, not with the
    [APIError] of the body. *)
Theorem error_detail_that_is_no_string_hides_the_api_error
    (c : APIClient) (ctx : Context)
    (in1 : option ListPaperDocsArgs) (in2 : option PaperDocExport)
    (in3 : option RefPaperDoc)
    (tr : Transport) (resp : http.Response)
    (ms : list (string * value)) (rest k : string) (m : list (string * value))
    (k' : string) (v : value) :
  http.StatusCode resp <> 200%Z ->
  next_value (io.data (http.RespBody resp)) = Scanned (Object ms) rest ->
  In (k, Object m) ms -> foldName k = "ERROR" ->
  In (k', v) m -> (forall s, v <> Str s) -> v <> Null ->
  exists e, is_type_error e
    /\ (answers tr ctx (ListDocs c ctx in1) resp ->
        result tr (ListDocs c ctx in1) = (zero, Some (JSONError e)))
    /\ (answers tr ctx (DownloadDoc c ctx in2) resp ->
        result tr (DownloadDoc c ctx in2) = (zero, "", Some (JSONError e)))
    /\ (answers tr ctx (GetDocFolderInfo c ctx in3) resp ->
        result tr (GetDocFolderInfo c ctx in3) = (zero, Some (JSONError e))).
Proof.
  intros Hs Hb Hin Hk Hin' Hv Hn.
  destruct (Decode_nested_error _ _ _ _ _ _ _ Hb Hin Hk Hin' Hv Hn) as (a & e & Hd & He).
  exists e. split; [exact He |].
  unfold ListDocs, DownloadDoc, GetDocFolderInfo.
  split; [| split]; intros Ha.
  - rewrite (rpc_non_200 _ _ _ _ _ _ _ Ha Hs), Hd. reflexivity.
  - rewrite (content_non_200 _ _ _ _ _ _ _ Ha Hs), Hd. reflexivity.
  - rewrite (rpc_non_200 _ _ _ _ _ _ _ Ha Hs), Hd. reflexivity.
Qed.

Lemma error_detail_that_is_no_string_hides_the_api_error_witness :
  let resp :=
    response 409 None
      (lit "{'error_summary':'path/not_found/','error':{'.tag':'path','path':{'.tag':'not_found'}}}") in
  exists e, is_type_error e
    /\ result (answer resp) (GetDocFolderInfo (NewClient "tok") Background None)
       = (zero, Some (JSONError e)).
Proof.
  intros resp.
  destruct (error_detail_that_is_no_string_hides_the_api_error
              (NewClient "tok") Background None None None (answer resp) resp
              [("error_summary", Str "path/not_found/");
               ("error", Object [(".tag", Str "path");
                                 ("path", Object [(".tag", Str "not_found")])])]
              "" "error"
              [(".tag", Str "path"); ("path", Object [(".tag", Str "not_found")])]
              "path" (Object [(".tag", Str "not_found")]))
    as (e & He & _ & _ & Hg).
  - discriminate.
  - vm_compute. reflexivity.
  - right. left. reflexivity.
  - reflexivity.
  - right. left. reflexivity.
  - discriminate.
  - discriminate.
  - exists e. split; [exact He | apply Hg, answer_answers].
Defined.


Lemma find_has_more_field k :
  foldName k = "HASMORE" ->
  find_field ListPaperDocsResponse_fields k = Some (response_field 2).
Proof.
  intros Hk. unfold find_field. rewrite keyed_response. cbn [find fst snd].
  change (foldName "doc_ids") with "DOC_IDS".
  change (foldName "cursor") with "CURSOR".
  change (foldName "HasMore") with "HASMORE".
  rewrite Hk.
  destruct (String.eqb_spec "doc_ids" k) as [<- | _]; [discriminate Hk |].
  destruct (String.eqb_spec "cursor" k) as [<- | _]; [discriminate Hk |].
  destruct (String.eqb_spec "HasMore" k); reflexivity.
Qed.

Lemma fstore_has_more b (r : ListPaperDocsResponse) :
  fstore (response_field 2) (Bool b) r
  = (mkListPaperDocsResponse (DocIDs r) (ListPaperDocsResponse_Cursor r) b, None).
Proof. reflexivity. Qed.

(** X17: [ListDocs] does read the flag when the document names it by
    the Go name of the field: with a key that equals [HasMore] when
    letter case is ignored, the returned [HasMore] is the flag of the
    document. *)
Theorem list_docs_reads_has_more_under_the_go_field_name
    (c : APIClient) (ctx : Context) (in_ : option ListPaperDocsArgs)
    (tr : Transport) (resp : http.Response)
    (ids : list string) (cur : Cursor) (more : bool) (k : string) :
  answers tr ctx (ListDocs c ctx in_) resp ->
  http.StatusCode resp = 200%Z ->
  foldName k = "HASMORE" ->
  body_starts_with resp
    (Object [("doc_ids", Array (map Str ids)); ("cursor", cursor_json cur);
             (k, Bool more)]) ->
  result tr (ListDocs c ctx in_) = (mkListPaperDocsResponse ids cur more, None).
Proof.
  intros Ha Hs Hk Hb. unfold ListDocs in *.
  rewrite (rpc_ok_object _ _ _ _ _ _ _ _ Ha Hs Hb).
  destruct find_response_fields as (H0 & H1 & _ & _).
  change (store (Object [("doc_ids", Array (map Str ids)); ("cursor", cursor_json cur);
                         (k, Bool more)]) (zero : ListPaperDocsResponse))
    with (store_members ListPaperDocsResponse_fields
            [("doc_ids", Array (map Str ids)); ("cursor", cursor_json cur); (k, Bool more)]
            (mkListPaperDocsResponse [] (mkCursor "" "") false)).
  rewrite (store_members_found _ _ _ _ _ _ _ H0 (fstore_doc_ids ids _)).
  rewrite (store_members_found _ _ _ _ _ _ _ H1 (fstore_cursor cur _)).
  rewrite (store_members_found _ _ _ _ _ _ _ (find_has_more_field k Hk)
             (fstore_has_more more _)).
  reflexivity.
Qed.

Lemma list_docs_reads_has_more_under_the_go_field_name_witness :
  result
    (answer (response 200 None
       (lit "{'doc_ids':['a'],'cursor':{'value':'v','expiration':'e'},'hasmore':true}")))
    (ListDocs (NewClient "tok") Background None)
  = (mkListPaperDocsResponse ["a"] (mkCursor "v" "e") true, None).
Proof.
  apply (list_docs_reads_has_more_under_the_go_field_name
           (NewClient "tok") Background None
           (answer (response 200 None
              (lit "{'doc_ids':['a'],'cursor':{'value':'v','expiration':'e'},'hasmore':true}")))
           (response 200 None
              (lit "{'doc_ids':['a'],'cursor':{'value':'v','expiration':'e'},'hasmore':true}"))
           ["a"] (mkCursor "v" "e") true "hasmore").
  - apply answer_answers.
  - reflexivity.
  - reflexivity.
  - exists "". vm_compute. reflexivity.
Defined.

Lemma Decode_no_value {A} `{Decodable A} r (v : A) :
  (forall j rest, next_value (io.data r) <> Scanned j rest) ->
  exists e, Decode r v = (v, Some e) /\ ~ is_type_error e.
Proof.
  intros Hn. unfold Decode.
  destruct (next_value (io.data r)) as [j rest | | |].
  - destruct (Hn j rest eq_refl).
  - eexists. split; [reflexivity | intros []].
  - eexists. split; [reflexivity | intros []].
  - eexists. split; [reflexivity | intros []].
Qed.

(** X18: a metadata call answered with status 200 and a body that does
    not start with a JSON value (an empty body, a truncated one, HTML)
    fails with an error of the decoder that is no type error, and the
    zero destination: there is no silent empty result. *)
Theorem metadata_call_fails_on_a_body_that_is_no_json_value
    (c : APIClient) (ctx : Context) (tr : Transport) (resp : http.Response) :
  http.StatusCode resp = 200%Z ->
  (forall j rest, next_value (io.data (http.RespBody resp)) <> Scanned j rest) ->
  (forall in_, answers tr ctx (ListDocs c ctx in_) resp ->
     exists e, result tr (ListDocs c ctx in_) = (zero, Some (JSONError e))
               /\ ~ is_type_error e)
  /\ (forall in_, answers tr ctx (GetDocFolderInfo c ctx in_) resp ->
     exists e, result tr (GetDocFolderInfo c ctx in_) = (zero, Some (JSONError e))
               /\ ~ is_type_error e).
Proof.
  intros Hs Hn. unfold ListDocs, GetDocFolderInfo.
  split; intros in_ Ha; rewrite (result_rpc _ _ _ _ _ _ _ Ha), Hs; simpl.
  - destruct (Decode_no_value (http.RespBody resp) (zero : ListPaperDocsResponse) Hn)
      as (e & -> & He).
    exists e. split; [reflexivity | exact He].
  - destruct (Decode_no_value (http.RespBody resp) (zero : FoldersContainingPaperDoc) Hn)
      as (e & -> & He).
    exists e. split; [reflexivity | exact He].
Qed.

Lemma metadata_call_fails_on_a_body_that_is_no_json_value_witness :
  exists e,
    result (answer (response 200 None "<html>")) (ListDocs (NewClient "tok") Background None)
    = (zero, Some (JSONError e))
    /\ ~ is_type_error e.
Proof.
  destruct (metadata_call_fails_on_a_body_that_is_no_json_value
              (NewClient "tok") Background
              (answer (response 200 None "<html>")) (response 200 None "<html>"))
    as [Hl _].
  - reflexivity.
  - intros j rest. vm_compute. discriminate.
  - apply Hl, answer_answers.
Defined.

(** ** Bodies nested deeper than the scanner allows *)

Lemma scan_value_nested n d t :
  scan_value (S n) d (String "[" (String "[" t))
  = if (maxNestingDepth <=? d)%N then Invalid
    else elements n (scan_value n (d + 1)) [] (String "[" t).
Proof. reflexivity. Qed.

Lemma scan_value_limit n d t :
  (maxNestingDepth <= d)%N -> scan_value (S n) d (String "[" t) = Invalid.
Proof.
  intros Hd. apply N.leb_le in Hd. cbn [scan_value].
  change (skip_space (String "[" t)) with (String "[" t). cbv iota.
  change (Ascii.eqb "[" "{") with false. change (Ascii.eqb "[" "[") with true. cbv iota.
  rewrite Hd. reflexivity.
Qed.

(** Brackets opened beyond the limit are refused at the bracket that
    exceeds it, whatever follows. *)
Lemma nest_refused k : forall fuel d s,
  k < fuel -> 1 <= k -> (maxNestingDepth < d + N.of_nat k)%N ->
  scan_value fuel d (nest k +:+ s) = Invalid.
Proof.
  induction k as [|k IH]; intros fuel d s Hf Hk Hd; [lia |].
  destruct fuel as [|n]; [lia |].
  change (nest (S k) +:+ s) with (String "[" (nest k +:+ s)).
  destruct (N.le_gt_cases maxNestingDepth d) as [Hle | Hgt].
  - apply scan_value_limit, Hle.
  - destruct k as [|k']; [lia |].
    change (nest (S k') +:+ s) with (String "[" (nest k' +:+ s)).
    rewrite scan_value_nested.
    apply N.leb_gt in Hgt. rewrite Hgt.
    destruct n as [|n']; [lia |].
    cbn [elements].
    change (String "[" (nest k' +:+ s)) with (nest (S k') +:+ s).
    rewrite IH by lia. reflexivity.
Qed.

Lemma length_nest k s : k <= String.length (nest k +:+ s).
Proof.
  induction k as [|k IH]; [lia |].
  change (nest (S k) +:+ s) with (String "[" (nest k +:+ s)). simpl. lia.
Qed.

Lemma deep_member_refused k s :
  plain k ->
  next_value ("{" +:+ quote k +:+ ":" +:+ nest (N.to_nat maxNestingDepth) +:+ s) = Invalid.
Proof.
  intros Hk.
  generalize (N2Nat.id maxNestingDepth).
  generalize (length_nest (N.to_nat maxNestingDepth) s).
  generalize (N.to_nat maxNestingDepth) as K. intros K Hlen HK.
  assert (H1 : 1 <= K) by (unfold maxNestingDepth in HK; lia).
  unfold next_value. rewrite (quote_plain _ Hk). unfold DQ. flat.
  remember (nest K +:+ s) as deep eqn:Hdeep.
  assert (Hl : exists n, String.length
                 (String "{" (String dq (k +:+ String dq (String ":" deep)))) = S (S n)
               /\ K < S n).
  { cbn [String.length]. rewrite length_append. cbn [String.length].
    eexists. split; [reflexivity | lia]. }
  destruct Hl as (n & -> & Hn).
  rewrite scan_value_object, members_step, (string_value_plain _ _ Hk).
  cbn [scan_bind]. change (skip_space (String ":" deep)) with (String ":" deep).
  cbv iota. change (Ascii.eqb ":" ":") with true. cbv iota.
  subst deep. destruct n as [|n']; [lia |].
  rewrite nest_refused; [reflexivity | lia | exact H1 | rewrite HK; lia].
Qed.

Lemma Decode_invalid {A} `{Decodable A} r (v : A) :
  next_value (io.data r) = Invalid -> Decode r v = (v, Some SyntaxError).
Proof. intros Hn. unfold Decode. rewrite Hn. reflexivity. Qed.

(** X19: a body that opens an object and, as the value of its first
    member, [maxNestingDepth] arrays is refused by the scanner at the
    last of these brackets, whatever follows: a metadata call answered
    with such a body fails with a syntax error and the zero
    destination, whatever the status and even when a later member would
    select a field. *)
Theorem body_nested_too_deep_is_a_syntax_error
    (c : APIClient) (ctx : Context) (tr : Transport) (resp : http.Response)
    (k s : string) :
  plain k ->
  io.data (http.RespBody resp)
    = "{" +:+ quote k +:+ ":" +:+ nest (N.to_nat maxNestingDepth) +:+ s ->
  (forall in_, answers tr ctx (ListDocs c ctx in_) resp ->
     result tr (ListDocs c ctx in_) = (zero, Some (JSONError SyntaxError)))
  /\ (forall in_, answers tr ctx (GetDocFolderInfo c ctx in_) resp ->
     result tr (GetDocFolderInfo c ctx in_) = (zero, Some (JSONError SyntaxError))).
Proof.
  intros Hk Hb.
  assert (Hn : next_value (io.data (http.RespBody resp)) = Invalid).
  { rewrite Hb. apply deep_member_refused, Hk. }
  unfold ListDocs, GetDocFolderInfo.
  split; intros in_ Ha; rewrite (result_rpc _ _ _ _ _ _ _ Ha);
    rewrite !(Decode_invalid _ _ Hn);
    destruct (negb _); reflexivity.
Qed.

Lemma body_nested_too_deep_is_a_syntax_error_witness :
  let resp :=
    response 200 None
      ("{" +:+ quote "x" +:+ ":" +:+ nest (N.to_nat maxNestingDepth)
           +:+ lit "],'doc_ids':['a']}") in
  result (answer resp) (ListDocs (NewClient "tok") Background None)
  = (zero, Some (JSONError SyntaxError)).
Proof.
  intros resp.
  destruct (body_nested_too_deep_is_a_syntax_error (NewClient "tok") Background
              (answer resp) resp "x" (lit "],'doc_ids':['a']}")) as [Hl _].
  - reflexivity.
  - reflexivity.
  - apply Hl, answer_answers.
Defined.
